(** * NuxtLink: URL resolution, the shared visibility observer and the
      idle-prefetch scheduler

    A shallow embedding of [packages/nuxt/src/app/components/nuxt-link.ts].

    The component is modelled for the client bundle, i.e. with
    [import.meta.client = true] and [import.meta.server = false]; the
    server-only early returns of [useObserver] and [isSlowConnection] are
    therefore dead code and do not appear below.

    Strings are Rocq [string]s (sequences of 8-bit characters); JavaScript
    values that may be [undefined] are [option]s, and those that may also
    be [null] use [JsStr]. *)

From Stdlib Require Import String Ascii List Bool Arith Lia.
From stdpp Require Import base option gmap strings list fin_maps.

Import ListNotations.
Local Open Scope string_scope.

(* ===================================================================== *)
(** ** JavaScript helpers                                                 *)
(* ===================================================================== *)

Module Js.

(** A value of TypeScript type [string | null | undefined]. *)
Inductive JsStr :=
| Undefined
| Null
| Str (s : string).

Definition JsStr_eqb (a b : JsStr) : bool :=
  match a, b with
  | Undefined, Undefined => true
  | Null, Null => true
  | Str x, Str y => String.eqb x y
  | _, _ => false
  end.

(** Truthiness of a string: only [''] is falsy. *)
Definition truthy_string (s : string) : bool :=
  match s with EmptyString => false | String _ _ => true end.

Definition truthy (v : JsStr) : bool :=
  match v with
  | Str s => truthy_string s
  | Undefined | Null => false
  end.

(** Truthiness of a value of type [boolean | undefined]. *)
Definition truthy_bool (b : option bool) : bool :=
  match b with Some true => true | _ => false end.

(** [v || null] for [v : string | null | undefined]. *)
Definition or_null (v : JsStr) : option string :=
  match v with
  | Str s => if truthy_string s then Some s else None
  | Undefined | Null => None
  end.

(** [a || b] for two optional strings (used for class names). *)
Definition or_else (a b : option string) : option string :=
  match a with
  | Some s => if truthy_string s then a else b
  | None => b
  end.

(** [s.split(sep)] for a one-character separator: never the empty list. *)
Fixpoint split (sep : ascii) (s : string) : list string :=
  match s with
  | EmptyString => [EmptyString]
  | String c s' =>
      if Ascii.eqb c sep then EmptyString :: split sep s'
      else match split sep s' with
           | [] => [String c EmptyString]
           | x :: xs => String c x :: xs
           end
  end.

(** [s.startsWith(p)]. *)
Definition startsWith (s p : string) : bool := String.prefix p s.

(** [s.includes(p)], which is what [/p/.test(s)] computes for a pattern
    made of literal characters only. *)
Fixpoint includes (s p : string) : bool :=
  String.prefix p s ||
  match s with
  | EmptyString => false
  | String _ s' => includes s' p
  end.

(** [args.find(arg => arg !== undefined)]; [find] itself answers
    [undefined] when no argument qualifies. *)
Fixpoint find_defined (args : list JsStr) : JsStr :=
  match args with
  | [] => Undefined
  | Undefined :: rest => find_defined rest
  | v :: _ => v
  end.

(** A string without the separator. *)
Fixpoint free_of (sep : ascii) (s : string) : bool :=
  match s with
  | EmptyString => true
  | String c s' => negb (Ascii.eqb c sep) && free_of sep s'
  end.

End Js.
Import Js.

(* ===================================================================== *)
(** ** Collaborators                                                      *)
(* ===================================================================== *)

(** The helpers imported from the [ufo] package.  [hasProtocol s r] is
    [hasProtocol(s, { acceptRelative: r })]; the second argument of the two
    normalisers is [respectQueryAndFragment]. *)
Record Ufo := {
  hasProtocol : string -> bool -> bool;
  withTrailingSlash : string -> bool -> string;
  withoutTrailingSlash : string -> bool -> string;
  joinURL : string -> string -> string
}.

Inductive TrailingSlash := Append | Remove.

(** [NuxtLinkOptions]. *)
Record NuxtLinkOptions := {
  componentName : option string;
  externalRelAttribute : JsStr;
  opt_activeClass : option string;
  opt_exactActiveClass : option string;
  opt_prefetchedClass : option string;
  trailingSlash : option TrailingSlash
}.

(** A route location object: the fields the component reads or writes,
    [path] and [name] being optional keys. *)
Record RouteObject := {
  name : option string;
  path : option string;
  params : list (string * string);
  query : list (string * string);
  hash : option string
}.

(** [RouteLocationRaw]: a string or a route object. *)
Inductive RouteLocationRaw :=
| ToString (s : string)
| ToObject (o : RouteObject).

(** What [router.resolve] returns, as far as the component uses it. *)
Record RouteLocation := {
  loc_path : string;
  loc_fullPath : string;
  loc_href : option string
}.

(** [NuxtLinkProps]; every prop defaults to [undefined]. *)
Module Props.
Record t := {
  to : option RouteLocationRaw;
  href : option RouteLocationRaw;
  external : option bool;
  replace : option bool;
  custom : option bool;
  target : JsStr;
  rel : JsStr;
  noRel : option bool;
  prefetch : option bool;
  noPrefetch : option bool;
  activeClass : option string;
  exactActiveClass : option string;
  prefetchedClass : option string;
  ariaCurrentValue : option string
}.

Definition default : t :=
  {| to := None; href := None; external := None; replace := None;
     custom := None; target := Undefined; rel := Undefined; noRel := None;
     prefetch := None; noPrefetch := None; activeClass := None;
     exactActiveClass := None; prefetchedClass := None;
     ariaCurrentValue := None |}.
End Props.

Definition DEFAULT_EXTERNAL_REL_ATTRIBUTE : string := "noopener noreferrer".

Definition firstNonUndefined (args : list JsStr) : JsStr := find_defined args.

(* ===================================================================== *)
(** ** URL resolver                                                       *)
(* ===================================================================== *)

Section Resolver.

Variable ufo : Ufo.
Variable options : NuxtLinkOptions.
Variable router_resolve : RouteLocationRaw -> RouteLocation.
Variable baseURL : string.

Definition normalizeFn (ts : TrailingSlash) : string -> bool -> string :=
  match ts with
  | Append => withTrailingSlash ufo
  | Remove => withoutTrailingSlash ufo
  end.

Definition applyTrailingSlashBehavior (to : string) (ts : TrailingSlash) : string :=
  let hasProtocolDifferentFromHttp :=
    hasProtocol ufo to false && negb (startsWith to "http") in
  if hasProtocolDifferentFromHttp then to
  else
    match split "#" to with
    | link :: fragment :: _ =>
        if truthy_string fragment
        then normalizeFn ts link true ++ "#" ++ fragment
        else normalizeFn ts to true
    | _ => normalizeFn ts to true
    end.

(** [!to] for a [RouteLocationRaw]: only the empty string is falsy. *)
Definition falsy_to (to : RouteLocationRaw) : bool :=
  match to with
  | ToString s => negb (truthy_string s)
  | ToObject _ => false
  end.

Definition resolveTrailingSlashBehavior (to : RouteLocationRaw) : RouteLocationRaw :=
  if falsy_to to then to
  else
    match trailingSlash options with
    | None => to
    | Some ts =>
        match to with
        | ToString s => ToString (applyTrailingSlashBehavior s ts)
        | ToObject o =>
            let p :=
              match path o with
              | Some p => p
              | None => loc_path (router_resolve to)
              end in
            ToObject {| name := None;
                        path := Some (applyTrailingSlashBehavior p ts);
                        params := params o;
                        query := query o;
                        hash := hash o |}
        end
    end.

(** [props.to || props.href || '']. *)
Definition raw_target (props : Props.t) : RouteLocationRaw :=
  match Props.to props with
  | Some t => if falsy_to t
              then match Props.href props with
                   | Some h => if falsy_to h then ToString EmptyString else h
                   | None => ToString EmptyString
                   end
              else t
  | None => match Props.href props with
            | Some h => if falsy_to h then ToString EmptyString else h
            | None => ToString EmptyString
            end
  end.

(** The computed [to]. *)
Definition to_value (props : Props.t) : RouteLocationRaw :=
  resolveTrailingSlashBehavior (raw_target props).

(** The computed [isProtocolURL]. *)
Definition isProtocolURL (to : RouteLocationRaw) : bool :=
  match to with
  | ToString s => hasProtocol ufo s true
  | ToObject _ => false
  end.

(** The computed [isExternal], as a function of the props and of the
    value of the computed [to]. *)
Definition isExternal (props : Props.t) (to : RouteLocationRaw) : bool :=
  if truthy_bool (Props.external props) then true
  else if truthy (Props.target props)
          && negb (JsStr_eqb (Props.target props) (Str "_self")) then true
  else match to with
       | ToObject _ => false
       | ToString s => String.eqb s EmptyString || isProtocolURL to
       end.

(** The [href] constant of the render function's external branch. *)
Definition href (props : Props.t) (to : RouteLocationRaw) : option string :=
  match to with
  | ToObject _ => loc_href (router_resolve to)
  | ToString s =>
      if truthy_string s && negb (truthy_bool (Props.external props))
         && negb (isProtocolURL to)
      then match resolveTrailingSlashBehavior (ToString (joinURL ufo baseURL s)) with
           | ToString r => Some r
           | ToObject _ => None
           end
      else or_null (Str s)
  end.

(** The [rel] constant of the render function's external branch. *)
Definition rel (props : Props.t) (href : option string) : option string :=
  if truthy_bool (Props.noRel props) then None
  else
    or_null
      (firstNonUndefined
         [Props.rel props;
          externalRelAttribute options;
          Str (match href with
               | Some h => if truthy_string h then DEFAULT_EXTERNAL_REL_ATTRIBUTE else EmptyString
               | None => EmptyString
               end)]).

(** *** The render function

    What [setup] returns.  [h(...)] calls are recorded as constructors;
    the [ref] bindings ([elRef], [el]) belong to the scheduler below and
    the lazy [route] getter of the slot props (built from [parseURL] only
    when a slot reads it) is left out. *)

Record RouterLinkProps := {
  rl_to : RouteLocationRaw;
  rl_activeClass : option string;
  rl_exactActiveClass : option string;
  rl_replace : option bool;
  rl_ariaCurrentValue : option string;
  rl_custom : option bool;
  (** [class] and [rel] are keys that are only sometimes assigned *)
  rl_class : option (option string);
  rl_rel : option JsStr
}.

Record SlotProps := {
  sp_href : option string;
  (** [navigate] calls [navigateTo(href, { replace })] *)
  sp_navigate : option string * option bool;
  sp_rel : option string;
  sp_target : option string;
  sp_isExternal : bool;
  sp_isActive : bool;
  sp_isExactActive : bool
}.

Section Render.

(** The type of what a slot renders. *)
Variable V : Type.

(** [slots.default], called with or without slot props. *)
Definition Slot := option SlotProps -> V.

Inductive Rendered :=
| HRouterLink (p : RouterLinkProps) (children : option Slot)
| HAnchor (href rel target : option string) (children : option V)
| SlotOutput (v : V)
| RenderNull.

Definition render (props : Props.t) (slots_default : option Slot)
           (prefetched : bool) : Rendered :=
  let to := to_value props in
  if negb (isExternal props to) then
    let custom := truthy_bool (Props.custom props) in
    HRouterLink
      {| rl_to := to;
         rl_activeClass := or_else (Props.activeClass props) (opt_activeClass options);
         rl_exactActiveClass :=
           or_else (Props.exactActiveClass props) (opt_exactActiveClass options);
         rl_replace := Props.replace props;
         rl_ariaCurrentValue := Props.ariaCurrentValue props;
         rl_custom := Props.custom props;
         rl_class :=
           if negb custom && prefetched
           then Some (or_else (Props.prefetchedClass props) (opt_prefetchedClass options))
           else None;
         rl_rel := if negb custom then Some (Props.rel props) else None |}
      slots_default
  else
    let href := href props to in
    let target := or_null (Props.target props) in
    let rel := rel props href in
    let navigate := (href, Props.replace props) in
    if truthy_bool (Props.custom props) then
      match slots_default with
      | None => RenderNull
      | Some slot =>
          SlotOutput
            (slot (Some {| sp_href := href;
                           sp_navigate := navigate;
                           sp_rel := rel;
                           sp_target := target;
                           sp_isExternal := isExternal props to;
                           sp_isActive := false;
                           sp_isExactActive := false |}))
      end
    else
      HAnchor href rel target
              (match slots_default with
               | Some slot => Some (slot None)
               | None => None
               end).

End Render.

End Resolver.

Arguments HRouterLink {V}.
Arguments HAnchor {V}.
Arguments SlotOutput {V}.
Arguments RenderNull {V}.
Arguments render ufo options router_resolve baseURL {V}.

(* ===================================================================== *)
(** ** Arming conditions                                                  *)
(* ===================================================================== *)

(** [navigator.connection], when the browser has it. *)
Record Connection := {
  saveData : bool;
  effectiveType : string
}.

Definition isSlowConnection (cn : option Connection) : bool :=
  match cn with
  | Some c => saveData c || includes (effectiveType c) "2g"
  | None => false
  end.

(** The constant [shouldPrefetch] of [setup]. *)
Definition shouldPrefetch (props : Props.t) (cn : option Connection) : bool :=
  negb (match Props.prefetch props with Some false => true | _ => false end)
  && negb (match Props.noPrefetch props with Some true => true | _ => false end)
  && negb (JsStr_eqb (Props.target props) (Str "_blank"))
  && negb (isSlowConnection cn).

(* ===================================================================== *)
(** ** The rules as the specification words them                          *)
(* ===================================================================== *)

Inductive LinkKind := External | Internal.

(** The classification rule, checked in order, first match wins: explicit
    external flag; a [target] attribute that is set and not [_self]; a
    route object; the empty string; a string with a URI scheme (or
    protocol-relative); anything else. *)
Definition classification_rule (external_flag : bool) (target_attr : JsStr)
           (has_scheme : string -> bool) (to : RouteLocationRaw) : LinkKind :=
  if external_flag then External
  else if match target_attr with
          | Str t => truthy_string t && negb (String.eqb t "_self")
          | Undefined | Null => false
          end then External
  else match to with
       | ToObject _ => Internal
       | ToString s =>
           if String.eqb s EmptyString then External
           else if has_scheme s then External
           else Internal
       end.

(** The [rel] rule as worded: [null] under [noRel]; otherwise the first
    value that is defined, an empty string counting as "use the next
    fallback"; the hardcoded default only when [href] is non-null. *)
Fixpoint first_usable (candidates : list JsStr) : option string :=
  match candidates with
  | [] => None
  | Undefined :: rest => first_usable rest
  | Str EmptyString :: rest => first_usable rest
  | Str s :: _ => Some s
  | Null :: _ => None
  end.

Definition rel_rule (noRel : bool) (rel_prop configured : JsStr)
           (href : option string) : option string :=
  if noRel then None
  else first_usable
         [rel_prop; configured;
          match href with
          | Some h => if truthy_string h then Str DEFAULT_EXTERNAL_REL_ATTRIBUTE
                      else Undefined
          | None => Undefined
          end].

(** A connection is slow when the network-information primitive exists and
    either [saveData] is set or [effectiveType] contains [2g]. *)
Definition slow_connection (cn : option Connection) : Prop :=
  exists c, cn = Some c /\
    (saveData c = true \/ exists a b, effectiveType c = a ++ "2g" ++ b).

(* ===================================================================== *)
(** ** A reference model of the [ufo] helpers                             *)
(* ===================================================================== *)

(** The general results below hold for every implementation of the [ufo]
    helpers.  To evaluate the component on concrete targets, this module
    gives the helpers as the [ufo] package defines them, on strings of
    8-bit characters. *)
Module UfoModel.

Definition code (c : ascii) : nat := nat_of_ascii c.

Definition between (lo hi : nat) (c : ascii) : bool :=
  Nat.leb lo (code c) && Nat.leb (code c) hi.

(** [\s] *)
Definition is_space (c : ascii) : bool :=
  between 9 13 c || Nat.eqb (code c) 32.

(** [\w] *)
Definition is_word (c : ascii) : bool :=
  between 48 57 c || between 65 90 c || between 97 122 c || Ascii.eqb c "_".

(** The character class of [PROTOCOL_REGEX]: whitespace, word
    characters, NUL, [+], [.] and [-]. *)
Definition is_scheme_char (c : ascii) : bool :=
  is_space c || is_word c || Nat.eqb (code c) 0
  || Ascii.eqb c "+" || Ascii.eqb c "." || Ascii.eqb c "-".

Definition is_slash (c : ascii) : bool :=
  Ascii.eqb c "/" || Ascii.eqb c (ascii_of_nat 92).

(** [PROTOCOL_REGEX.test]: two or more scheme characters, then a colon. *)
Fixpoint scheme_scan (seen : nat) (s : string) : bool :=
  match s with
  | EmptyString => false
  | String c s' =>
      if is_scheme_char c then scheme_scan (S seen) s'
      else Ascii.eqb c ":" && Nat.leb 2 seen
  end.

(** [PROTOCOL_RELATIVE_REGEX.test]: two or more slashes, each possibly
    followed by whitespace, then a character that is not a slash. *)
Fixpoint relative_scan (groups : nat) (s : string) : bool :=
  match s with
  | EmptyString => false
  | String c s' =>
      if is_slash c then relative_scan (S groups) s'
      else if Nat.leb 2 groups then true
      else if is_space c && Nat.leb 1 groups then relative_scan groups s'
      else false
  end.

Definition hasProtocol (input : string) (acceptRelative : bool) : bool :=
  scheme_scan 0 input || (if acceptRelative then relative_scan 0 input else false).

Fixpoint endsWith_slash (s : string) : bool :=
  match s with
  | EmptyString => false
  | String c EmptyString => Ascii.eqb c "/"
  | String _ s' => endsWith_slash s'
  end.

(** [s.slice(0, -1)] *)
Fixpoint drop_last (s : string) : string :=
  match s with
  | EmptyString => EmptyString
  | String _ EmptyString => EmptyString
  | String c s' => String c (drop_last s')
  end.

(** Cuts [s] before the first [sep]: the part before it, and the rest
    starting with [sep] (empty when [sep] does not occur). *)
Fixpoint cut (sep : ascii) (s : string) : string * string :=
  match s with
  | EmptyString => (EmptyString, EmptyString)
  | String c s' =>
      if Ascii.eqb c sep then (EmptyString, s)
      else let '(a, b) := cut sep s' in (String c a, b)
  end.

Definition or_slash (s : string) : string :=
  if truthy_string s then s else "/".

Definition hasTrailingSlash (input : string) (respectQueryAndFragment : bool) : bool :=
  if respectQueryAndFragment
  then endsWith_slash input || includes input "/?" || includes input "/#"
  else endsWith_slash input.

Definition withTrailingSlash (input : string) (respectQueryAndFragment : bool) : string :=
  if negb respectQueryAndFragment then
    if endsWith_slash input then input else input ++ "/"
  else if hasTrailingSlash input true then or_slash input
  else
    let '(p, fragment) := cut "#" input in
    if truthy_string fragment && negb (truthy_string p) then fragment
    else let '(s0, q) := cut "?" p in s0 ++ "/" ++ q ++ fragment.

Definition withoutTrailingSlash (input : string) (respectQueryAndFragment : bool) : string :=
  if negb respectQueryAndFragment then
    or_slash (if endsWith_slash input then drop_last input else input)
  else if negb (hasTrailingSlash input true) then or_slash input
  else
    let '(p, fragment) := cut "#" input in
    let '(s0, q) := cut "?" p in
    let cleanPath := if endsWith_slash s0 then drop_last s0 else s0 in
    or_slash cleanPath ++ q ++ fragment.

(** [segment.replace(/^\.?\//, '')] *)
Definition strip_leading_slash (s : string) : string :=
  match s with
  | String "/" r => r
  | String "." (String "/" r) => r
  | _ => s
  end.

Definition joinURL (base input : string) : string :=
  if truthy_string input && negb (String.eqb input "/") then
    if truthy_string base
    then withTrailingSlash base false ++ strip_leading_slash input
    else input
  else base.

Definition ufo : Ufo :=
  Build_Ufo hasProtocol withTrailingSlash withoutTrailingSlash joinURL.

End UfoModel.

(* ===================================================================== *)
(** ** The shared visibility observer ([useObserver])                     *)
(* ===================================================================== *)

Module Observer.

(** DOM elements, by identity. *)
Definition Element := nat.

(** A native [IntersectionObserver]: its identity and the targets it
    currently observes. *)
Record IntersectionObserver := {
  io_id : nat;
  io_targets : gset Element
}.

(** An [IntersectionObserverEntry]; the ratio is a fraction
    [ratio_num / ratio_den]. *)
Record Entry := {
  entry_target : Element;
  isIntersecting : bool;
  ratio_num : nat;
  ratio_den : nat
}.

(** [entry.isIntersecting || entry.intersectionRatio > 0] *)
Definition isVisible (entry : Entry) : bool :=
  isIntersecting entry || Nat.ltb 0 (ratio_num entry).

Section Registry.

(** The type of the registered callbacks. *)
Variable CB : Type.

(** The two variables [observer] and [callbacks] that the closures of
    [useObserver] share, together with a count of the native observers
    constructed and disconnected so far. *)
Record t := {
  observer : option IntersectionObserver;
  callbacks : gmap Element CB;
  constructed : nat;
  disconnected : nat
}.

Definition init : t :=
  {| observer := None; callbacks := ∅; constructed := 0; disconnected := 0 |}.

(** [observe(element, callback)]; the function it returns is
    [unobserveFn element]. *)
Definition observe (element : Element) (callback : CB) (st : t) : t :=
  let io :=
    match observer st with
    | Some io => io
    | None => {| io_id := constructed st; io_targets := ∅ |}
    end in
  {| observer := Some {| io_id := io_id io;
                         io_targets := {[element]} ∪ io_targets io |};
     callbacks := <[element := callback]> (callbacks st);
     constructed :=
       match observer st with
       | Some _ => constructed st
       | None => S (constructed st)
       end;
     disconnected := disconnected st |}.

(** How a call ends: normally, or with an exception thrown; either way
    with the state it leaves behind. *)
Inductive Completion :=
| Returned (st : t)
| Threw (st : t).

Definition state_of (c : Completion) : t :=
  match c with Returned st | Threw st => st end.

(** The closure returned by [observe(element, _)].  [observer!] is
    dereferenced unchecked: on [null] the call throws a [TypeError],
    after [callbacks.delete] has run. *)
Definition unobserveFn (element : Element) (st : t) : Completion :=
  let cbs := delete element (callbacks st) in
  match observer st with
  | None =>
      Threw {| observer := None; callbacks := cbs;
               constructed := constructed st;
               disconnected := disconnected st |}
  | Some io =>
      let io' := {| io_id := io_id io;
                    io_targets := io_targets io ∖ {[element]} |} in
      if Nat.eqb (size cbs) 0
      then Returned {| observer := None; callbacks := cbs;
                       constructed := constructed st;
                       disconnected := S (disconnected st) |}
      else Returned {| observer := Some io'; callbacks := cbs;
                       constructed := constructed st;
                       disconnected := disconnected st |}
  end.

(** The callback given to [new IntersectionObserver]: for each entry,
    look the target up in [callbacks] as they are then and call the
    callback of a visible one.  [S] is the whole program state, in
    which a callback runs. *)
Definition deliver {S : Type} (registry : S -> t) (call : CB -> S -> S)
           (entries : list Entry) (s : S) : S :=
  fold_left
    (fun s entry =>
       match callbacks (registry s) !! entry_target entry with
       | Some callback => if isVisible entry then call callback s else s
       | None => s
       end)
    entries s.

(** The operations a client of [useObserver] can perform. *)
Inductive Op :=
| Observe (element : Element) (callback : CB)
| Unobserve (element : Element).

Definition apply (op : Op) (st : t) : t :=
  match op with
  | Observe element callback => observe element callback st
  | Unobserve element => state_of (unobserveFn element st)
  end.

Definition run (ops : list Op) (st : t) : t :=
  fold_left (fun st op => apply op st) ops st.

(** Native observers that are alive: constructed and not disconnected. *)
Definition alive (st : t) : nat := constructed st - disconnected st.

(** What holds of the registry between any two calls: the watcher
    exists exactly when the map is not empty, it watches the keys of
    the map, and it is the one native observer alive. *)
Definition consistent (st : t) : Prop :=
  (observer st = None <-> callbacks st = ∅)
  /\ (forall io, observer st = Some io ->
                 io_targets io = dom (callbacks st)
                 /\ io_id io < constructed st)
  /\ constructed st
     = disconnected st + match observer st with Some _ => 1 | None => 0 end.

End Registry.

Arguments observer {CB}.
Arguments callbacks {CB}.
Arguments constructed {CB}.
Arguments disconnected {CB}.
Arguments init {CB}.
Arguments observe {CB}.
Arguments Returned {CB}.
Arguments Threw {CB}.
Arguments state_of {CB}.
Arguments unobserveFn {CB}.
Arguments deliver {CB S}.
Arguments Observe {CB}.
Arguments Unobserve {CB}.
Arguments apply {CB}.
Arguments run {CB}.
Arguments alive {CB}.
Arguments consistent {CB}.

End Observer.

(* ===================================================================== *)
(** ** The idle-prefetch scheduler of a link instance                     *)
(* ===================================================================== *)

Module Scheduler.

Import Observer.

(** Link instances, by identity. *)
Definition LinkId := nat.

Inductive Phase := Created | Mounted | Unmounted.

(** The variables of one [setup] call that the prefetching code touches.
    [hookCalls] and [preloads] count the calls of
    [callHook('link:prefetch', _)] and of [preloadRouteComponents];
    [inflight] counts visibility callbacks suspended at their [await]. *)
Record Link := {
  shouldPrefetch_ : bool;
  isExternal_ : bool;
  phase : Phase;
  el : option Element;
  idleId : option nat;
  unobserve : option Element;
  prefetched : bool;
  hookCalls : nat;
  preloads : nat;
  inflight : nat
}.

(** The page: the observer shared through [nuxtApp._observer], the link
    instances, the callbacks waiting in [onNuxtReady], and the host's
    table of idle callbacks with its next handle. *)
Record State := {
  registry : Observer.t LinkId;
  links : gmap LinkId Link;
  ready : gset LinkId;
  idle : gmap nat LinkId;
  next_idle : nat
}.

Definition init : State :=
  {| registry := Observer.init; links := ∅; ready := ∅; idle := ∅;
     next_idle := 1 |}.

Definition set_registry (r : Observer.t LinkId) (s : State) : State :=
  {| registry := r; links := links s; ready := ready s; idle := idle s;
     next_idle := next_idle s |}.

Definition set_link (i : LinkId) (l : Link) (s : State) : State :=
  {| registry := registry s; links := <[i := l]> (links s); ready := ready s;
     idle := idle s; next_idle := next_idle s |}.

Definition set_ready (r : gset LinkId) (s : State) : State :=
  {| registry := registry s; links := links s; ready := r; idle := idle s;
     next_idle := next_idle s |}.

Definition set_idle (t : gmap nat LinkId) (n : nat) (s : State) : State :=
  {| registry := registry s; links := links s; ready := ready s; idle := t;
     next_idle := n |}.

Definition with_phase (p : Phase) (l : Link) : Link :=
  {| shouldPrefetch_ := shouldPrefetch_ l; isExternal_ := isExternal_ l;
     phase := p; el := el l; idleId := idleId l; unobserve := unobserve l;
     prefetched := prefetched l; hookCalls := hookCalls l;
     preloads := preloads l; inflight := inflight l |}.

Definition with_el (e : option Element) (l : Link) : Link :=
  {| shouldPrefetch_ := shouldPrefetch_ l; isExternal_ := isExternal_ l;
     phase := phase l; el := e; idleId := idleId l; unobserve := unobserve l;
     prefetched := prefetched l; hookCalls := hookCalls l;
     preloads := preloads l; inflight := inflight l |}.

Definition with_idleId (h : option nat) (l : Link) : Link :=
  {| shouldPrefetch_ := shouldPrefetch_ l; isExternal_ := isExternal_ l;
     phase := phase l; el := el l; idleId := h; unobserve := unobserve l;
     prefetched := prefetched l; hookCalls := hookCalls l;
     preloads := preloads l; inflight := inflight l |}.

Definition with_unobserve (u : option Element) (l : Link) : Link :=
  {| shouldPrefetch_ := shouldPrefetch_ l; isExternal_ := isExternal_ l;
     phase := phase l; el := el l; idleId := idleId l; unobserve := u;
     prefetched := prefetched l; hookCalls := hookCalls l;
     preloads := preloads l; inflight := inflight l |}.

(** The link as [setup] leaves it. *)
Definition setup (props : Props.t) (cn : option Connection) (ext : bool) : Link :=
  {| shouldPrefetch_ := shouldPrefetch props cn; isExternal_ := ext;
     phase := Created; el := None; idleId := None; unobserve := None;
     prefetched := false; hookCalls := 0; preloads := 0; inflight := 0 |}.

(** The host's [requestIdleCallback]: files the callback of link [i]
    under a fresh handle. *)
Definition requestIdleCallback (i : LinkId) (s : State) : nat * State :=
  (next_idle s, set_idle (<[next_idle s := i]> (idle s)) (S (next_idle s)) s).

Definition cancelIdleCallback (h : nat) (s : State) : State :=
  set_idle (delete h (idle s)) (next_idle s) s.

(** The callback passed to [observer.observe], up to its [await]:
    release the registration, clear the handle, then start the hook and
    (for an internal target) the preload.  When [unobserve] throws, the
    [async] function rejects there and nothing after it runs. *)
Definition visibleCallback (i : LinkId) (s : State) : State :=
  match links s !! i with
  | None => s
  | Some l =>
      let released :=
        match unobserve l with
        | Some e => unobserveFn e (registry s)
        | None => Returned (registry s)
        end in
      match released with
      | Threw r => set_registry r s
      | Returned r =>
          set_link i
            {| shouldPrefetch_ := shouldPrefetch_ l;
               isExternal_ := isExternal_ l;
               phase := phase l; el := el l; idleId := idleId l;
               unobserve := None;
               prefetched := prefetched l;
               hookCalls := S (hookCalls l);
               preloads := if isExternal_ l then preloads l else S (preloads l);
               inflight := S (inflight l) |}
            (set_registry r s)
      end
  end.

(** The rest of the visibility callback, after [Promise.all] settles. *)
Definition settle (i : LinkId) (s : State) : State :=
  match links s !! i with
  | None => s
  | Some l =>
      match inflight l with
      | O => s
      | S n =>
          set_link i
            {| shouldPrefetch_ := shouldPrefetch_ l;
               isExternal_ := isExternal_ l;
               phase := phase l; el := el l; idleId := idleId l;
               unobserve := unobserve l;
               prefetched := true;
               hookCalls := hookCalls l; preloads := preloads l;
               inflight := n |}
            s
      end
  end.

(** The callback passed to [requestIdleCallback]. *)
Definition idleCallback (i : LinkId) (s : State) : State :=
  match links s !! i with
  | None => s
  | Some l =>
      match el l with
      | Some e =>
          set_link i (with_unobserve (Some e) l)
                   (set_registry (observe e i (registry s)) s)
      | None => s
      end
  end.

(** The callback passed to [onNuxtReady]. *)
Definition readyCallback (i : LinkId) (s : State) : State :=
  match links s !! i with
  | None => s
  | Some l =>
      let '(h, s') := requestIdleCallback i s in
      set_link i (with_idleId (Some h) l) s'
  end.

(** The [onMounted] hook: hand [readyCallback] to [onNuxtReady]. *)
Definition onMounted (i : LinkId) (s : State) : State :=
  set_ready ({[i]} ∪ ready s) s.

(** The [onBeforeUnmount] hook. *)
Definition onBeforeUnmount (i : LinkId) (s : State) : State :=
  match links s !! i with
  | None => s
  | Some l =>
      let s1 :=
        match idleId l with
        | Some h => if Nat.eqb h 0 then s else cancelIdleCallback h s
        | None => s
        end in
      match unobserve l with
      | Some e =>
          match unobserveFn e (registry s1) with
          | Threw r => set_registry r s1
          | Returned r => set_link i (with_unobserve None l) (set_registry r s1)
          end
      | None => set_link i (with_unobserve None l) s1
      end
  end.

(** What can happen on the page.  [Render] is the rendering layer
    assigning the element reference ([None] for [null], [undefined] or a
    node without [tagName]); [IdleManual] is a caller invoking again an
    idle callback it has been handed, whatever the host's table says. *)
Inductive Event :=
| Setup (i : LinkId) (props : Props.t) (cn : option Connection) (ext : bool)
| Render (i : LinkId) (node : option Element)
| Mount (i : LinkId)
| NuxtReady (i : LinkId)
| IdleFire (h : nat)
| IdleManual (i : LinkId)
| Intersect (entries : list Entry)
| Settle (i : LinkId)
| Unmount (i : LinkId).

Definition step (ev : Event) (s : State) : State :=
  match ev with
  | Setup i props cn ext =>
      match links s !! i with
      | Some _ => s
      | None => set_link i (setup props cn ext) s
      end
  | Render i node =>
      match links s !! i with
      | Some l => set_link i (with_el node l) s
      | None => s
      end
  | Mount i =>
      match links s !! i with
      | Some l =>
          match phase l with
          | Created =>
              let s' := set_link i (with_phase Mounted l) s in
              if shouldPrefetch_ l then onMounted i s' else s'
          | _ => s
          end
      | None => s
      end
  | NuxtReady i =>
      if decide (i ∈ ready s)
      then readyCallback i (set_ready (ready s ∖ {[i]}) s)
      else s
  | IdleFire h =>
      (* the host drops the handle from its table and runs the callback *)
      match idle s !! h with
      | Some i => idleCallback i (cancelIdleCallback h s)
      | None => s
      end
  | IdleManual i =>
      match links s !! i with
      | Some l => match idleId l with
                  | Some _ => idleCallback i s
                  | None => s
                  end
      | None => s
      end
  | Intersect entries => deliver registry visibleCallback entries s
  | Settle i => settle i s
  | Unmount i =>
      match links s !! i with
      | Some l =>
          match phase l with
          | Mounted =>
              let s' := set_link i (with_phase Unmounted l) s in
              if shouldPrefetch_ l then onBeforeUnmount i s' else s'
          | _ => s
          end
      | None => s
      end
  end.

Definition run (tr : list Event) (s : State) : State :=
  fold_left (fun s ev => step ev s) tr s.

(** Events the host itself produces: everything but [IdleManual]. *)
Definition host_event (ev : Event) : bool :=
  match ev with IdleManual _ => false | _ => true end.

Definition hook_calls (i : LinkId) (s : State) : nat :=
  match links s !! i with Some l => hookCalls l | None => 0 end.

(** Whether [ev], in state [s], runs the idle callback of link [i] while
    the link's element reference holds an element. *)
Definition arms_observation (i : LinkId) (ev : Event) (s : State) : bool :=
  match links s !! i with
  | Some l =>
      match el l with
      | Some _ =>
          match ev with
          | IdleFire h => bool_decide (idle s !! h = Some i)
          | IdleManual j =>
              bool_decide (j = i)
              && match idleId l with Some _ => true | None => false end
          | _ => false
          end
      | None => false
      end
  | None => false
  end.

(** No event of [tr], run from [s], does that. *)
Fixpoint never_arms (i : LinkId) (tr : list Event) (s : State) : bool :=
  match tr with
  | [] => true
  | ev :: tr' => negb (arms_observation i ev s) && never_arms i tr' (step ev s)
  end.

Implicit Types (s : State) (i j : LinkId) (l : Link) (e : Element) (h : nat).

(** *** Invariants *)

Definition unregistered i s : Prop :=
  forall e, callbacks (registry s) !! e <> Some i.

Definition unscheduled i s : Prop :=
  forall h, idle s !! h <> Some i.

Definition absent i s : Prop :=
  (i ∉ ready s) /\ unscheduled i s /\ unregistered i s.

(** One state leaves link [j] alone and hands it no new work. *)
Definition no_new_work j s s' : Prop :=
  (j ∈ ready s' -> j ∈ ready s)
  /\ (forall h, idle s' !! h = Some j -> idle s !! h = Some j)
  /\ (forall e, callbacks (registry s') !! e = Some j ->
                callbacks (registry s) !! e = Some j).

(** *** Links that never arm *)

Definition inert_ok i s : Prop :=
  match links s !! i with
  | None => absent i s
  | Some l =>
      shouldPrefetch_ l = false ->
      idleId l = None /\ unobserve l = None /\ hookCalls l = 0
      /\ inflight l = 0 /\ prefetched l = false /\ absent i s
  end.

(** *** Links driven by the host alone *)

Definition link_ok i s : Prop :=
  match links s !! i with
  | None => absent i s
  | Some l =>
      hookCalls l <= 1
      /\ (idleId l = None ->
          hookCalls l = 0 /\ unscheduled i s /\ unregistered i s)
      /\ (i ∈ ready s -> idleId l = None /\ phase l <> Created)
      /\ (phase l = Created -> idleId l = None)
      /\ (forall h, idle s !! h = Some i ->
                    idleId l = Some h /\ hookCalls l = 0 /\ unregistered i s)
      /\ (forall e, callbacks (registry s) !! e = Some i ->
                    unobserve l = Some e /\ hookCalls l = 0)
  end.

Definition handles_ok s : Prop :=
  1 <= next_idle s /\ forall h, is_Some (idle s !! h) -> 1 <= h.

Definition scheduled_ok s : Prop :=
  handles_ok s /\ forall i, link_ok i s.

Definition silent i (n : nat) s : Prop :=
  unregistered i s /\ hook_calls i s = n.

(** *** What [setup] decided stays decided *)

Definition set_up i (b : bool) s : Prop :=
  exists l, links s !! i = Some l /\ shouldPrefetch_ l = b.

(** [s'] has the links of [s], but for one whose arming is unchanged. *)
Definition updates_a_link s s' : Prop :=
  links s' = links s
  \/ exists j l l', links s !! j = Some l
                    /\ shouldPrefetch_ l' = shouldPrefetch_ l
                    /\ links s' = <[j := l']> (links s).

End Scheduler.

(* ===================================================================== *)
(** ** Sample data                                                        *)
(* ===================================================================== *)

Module Sample.

Import Observer Scheduler.

Definition options_with (ts : option TrailingSlash) (ext : JsStr) : NuxtLinkOptions :=
  {| componentName := None; externalRelAttribute := ext;
     opt_activeClass := None; opt_exactActiveClass := None;
     opt_prefetchedClass := None; trailingSlash := ts |}.

(** A router that resolves a string to itself and an object to its path. *)
Definition resolve (to : RouteLocationRaw) : RouteLocation :=
  let p := match to with
           | ToString s => s
           | ToObject o => match path o with Some p => p | None => "/" end
           end in
  {| loc_path := p; loc_fullPath := p; loc_href := Some p |}.

Definition props_to (to : string) (custom : option bool) (rel : JsStr) : Props.t :=
  {| Props.to := Some (ToString to); Props.href := None;
     Props.external := None; Props.replace := None; Props.custom := custom;
     Props.target := Undefined; Props.rel := rel; Props.noRel := None;
     Props.prefetch := None; Props.noPrefetch := None;
     Props.activeClass := None; Props.exactActiveClass := None;
     Props.prefetchedClass := None; Props.ariaCurrentValue := None |}.

Definition props_noPrefetch : Props.t :=
  {| Props.to := Some (ToString "/about"); Props.href := None;
     Props.external := None; Props.replace := None; Props.custom := None;
     Props.target := Undefined; Props.rel := Undefined; Props.noRel := None;
     Props.prefetch := None; Props.noPrefetch := Some true;
     Props.activeClass := None; Props.exactActiveClass := None;
     Props.prefetchedClass := None; Props.ariaCurrentValue := None |}.

Definition named_route : RouteObject :=
  {| name := Some "x"; path := Some "/a"; params := []; query := [];
     hash := None |}.

Definition saver : Connection := {| saveData := true; effectiveType := "4g" |}.

(** An entry reporting element [e] as half visible. *)
Definition visible (e : Element) : Entry :=
  {| entry_target := e; isIntersecting := true; ratio_num := 1; ratio_den := 2 |}.

(** A link with default props is set up, rendered as element 7 and
    mounted. *)
Definition mounted : list Event :=
  [Setup 0 Props.default None false; Render 0 (Some 7); Mount 0].

(** ... then the application gets ready, the idle slot arrives, and the
    watcher reports the element three times, in two deliveries. *)
Definition seen_thrice : list Event :=
  mounted ++ [NuxtReady 0; IdleFire 1;
              Intersect [visible 7; visible 7]; Intersect [visible 7]].

End Sample.

(* ===================================================================== *)
(** ** Runs of particular shapes                                          *)
(* ===================================================================== *)

Module Runs.

Import Observer Scheduler.

(** The link record after the visibility callback has released its
    registration and started the hook and the preload. *)
Definition started (l : Link) : Link :=
  {| shouldPrefetch_ := shouldPrefetch_ l;
     isExternal_ := isExternal_ l;
     phase := phase l; el := el l; idleId := idleId l;
     unobserve := None;
     prefetched := prefetched l;
     hookCalls := S (hookCalls l);
     preloads := if isExternal_ l then preloads l else S (preloads l);
     inflight := S (inflight l) |}.

(** The link record after [Promise.all] has settled, [n] callbacks
    still being suspended. *)
Definition settled (n : nat) (l : Link) : Link :=
  {| shouldPrefetch_ := shouldPrefetch_ l;
     isExternal_ := isExternal_ l;
     phase := phase l; el := el l; idleId := idleId l;
     unobserve := unobserve l;
     prefetched := true;
     hookCalls := hookCalls l; preloads := preloads l;
     inflight := n |}.

(** The watcher never reports a visible entry. *)
Definition no_visible_entry (tr : list Event) : bool :=
  forallb (fun ev => match ev with
                     | Intersect entries =>
                         forallb (fun entry => negb (isVisible entry)) entries
                     | _ => true
                     end) tr.

(** The rendering layer never puts an element in the reference of
    link [i]. *)
Definition never_rendered (i : LinkId) (tr : list Event) : bool :=
  forallb (fun ev => match ev with
                     | Render j (Some _) => negb (Nat.eqb j i)
                     | _ => true
                     end) tr.

(** The application does not get ready. *)
Definition before_ready (tr : list Event) : bool :=
  forallb (fun ev => match ev with NuxtReady _ => false | _ => true end) tr.


(** Nothing has been requested or registered yet. *)
Definition untouched (s : State) : Prop :=
  registry s = Observer.init /\ idle s = ∅
  /\ forall i l, links s !! i = Some l ->
                 idleId l = None /\ unobserve l = None
                 /\ hookCalls l = 0 /\ inflight l = 0.

End Runs.

Module MoreSample.

Import Observer Scheduler.

(** A link to [/about] that opens in a new tab. *)
Definition props_blank : Props.t :=
  {| Props.to := Some (ToString "/about"); Props.href := None;
     Props.external := None; Props.replace := None; Props.custom := None;
     Props.target := Str "_blank"; Props.rel := Undefined; Props.noRel := None;
     Props.prefetch := None; Props.noPrefetch := None;
     Props.activeClass := None; Props.exactActiveClass := None;
     Props.prefetchedClass := None; Props.ariaCurrentValue := None |}.

(** An entry reporting element [e] as out of view. *)
Definition hidden (e : Element) : Entry :=
  {| entry_target := e; isIntersecting := false; ratio_num := 0; ratio_den := 1 |}.

(** The sample link, mounted and past its idle callback: it waits for
    its element to become visible. *)
Definition waiting : list Event :=
  (Sample.mounted ++ [NuxtReady 0; IdleFire 1])%list.

(** The record of the sample link while it waits. *)
Definition waiting_link : Link :=
  {| shouldPrefetch_ := true; isExternal_ := false; phase := Mounted;
     el := Some 7; idleId := Some 1; unobserve := Some 7;
     prefetched := false; hookCalls := 0; preloads := 0; inflight := 0 |}.

(** ... and once its prefetch has started and settled. *)
Definition prefetched_link : Link :=
  {| shouldPrefetch_ := true; isExternal_ := false; phase := Mounted;
     el := Some 7; idleId := Some 1; unobserve := None;
     prefetched := true; hookCalls := 1; preloads := 1; inflight := 0 |}.

(** A link to [/about], with the classification its props compute. *)
Definition about_props : Props.t := Sample.props_to "/about" None Undefined.




(** Two links rendered to the same element: the second registration
    replaces the first, and the report of the element starts the
    prefetch of the second link, which releases the watcher. *)
Definition shared_element : list Event :=
  [Setup 0 about_props None false; Setup 1 about_props None false;
   Render 0 (Some 7); Render 1 (Some 7); Mount 0; Mount 1;
   NuxtReady 0; NuxtReady 1; IdleFire 1; IdleFire 2;
   Intersect [Sample.visible 7]].

End MoreSample.

(* ===================================================================== *)
(** * Results                                                             *)
(* ===================================================================== *)

(** ** Strings *)

Section StringFacts.

Lemma append_String (c : ascii) (a b : string) :
  String c a ++ b = String c (a ++ b).
Proof. reflexivity. Qed.

Lemma append_empty (b : string) : EmptyString ++ b = b.
Proof. reflexivity. Qed.

Lemma prefix_spec (p s : string) :
  String.prefix p s = true <-> exists b, s = p ++ b.
Proof.
  revert s. induction p as [|c p IH]; intros [|d s]; simpl.
  - split; [intros _; by exists EmptyString | done].
  - split; [intros _; by exists (String d s) | done].
  - split; [done | intros [b Hb]; rewrite append_String in Hb; discriminate].
  - destruct (ascii_dec c d) as [->|Hne].
    + rewrite IH. split; intros [b Hb]; exists b;
        rewrite append_String in *; congruence.
    + split; [done | intros [b Hb]; rewrite append_String in Hb; congruence].
Qed.

Lemma includes_unfold (s p : string) :
  includes s p
  = String.prefix p s
    || match s with EmptyString => false | String _ s' => includes s' p end.
Proof. by destruct s. Qed.

Lemma includes_spec (s p : string) :
  includes s p = true <-> exists a b, s = a ++ p ++ b.
Proof.
  induction s as [|c s IH]; rewrite includes_unfold.
  - rewrite orb_false_r, prefix_spec. split.
    + intros [b Hb]. by exists EmptyString, b.
    + intros [a [b Hab]]. destruct a; [by exists b | discriminate].
  - rewrite orb_true_iff, prefix_spec, IH. split.
    + intros [[b Hb] | [a [b Hab]]].
      * by exists EmptyString, b.
      * exists (String c a), b. by rewrite append_String, Hab.
    + intros [a [b Hab]]. destruct a as [|d a].
      * left. by exists b.
      * right. exists a, b. rewrite append_String in Hab. congruence.
Qed.

Lemma split_nonempty sep s : split sep s <> [].
Proof.
  destruct s as [|c s]; simpl; [done |].
  destruct (Ascii.eqb c sep); [done |]. by destruct (split sep s).
Qed.

Lemma split_free sep s : free_of sep s = true -> split sep s = [s].
Proof.
  induction s as [|c s IH]; simpl; [done |].
  intros [Hc Hs]%andb_true_iff. apply negb_true_iff in Hc.
  rewrite Hc, (IH Hs). done.
Qed.

Lemma split_app sep a b :
  free_of sep a = true ->
  split sep (a ++ String sep b) = a :: split sep b.
Proof.
  induction a as [|c a IH]; simpl.
  - intros _. by rewrite Ascii.eqb_refl.
  - intros [Hc Ha]%andb_true_iff. apply negb_true_iff in Hc.
    rewrite Hc, (IH Ha). done.
Qed.

End StringFacts.

(** ** URL resolver *)

Section ResolverFacts.

Variable ufo : Ufo.
Variable options : NuxtLinkOptions.
Variable router_resolve : RouteLocationRaw -> RouteLocation.
Variable baseURL : string.

Lemma empty_target_stays_empty (props : Props.t) :
  raw_target props = ToString EmptyString ->
  to_value ufo options router_resolve props = ToString EmptyString.
Proof.
  unfold to_value, resolveTrailingSlashBehavior. intros ->.
  by destruct (trailingSlash options).
Qed.

(** C4.  The computed [isExternal] is the classification rule of the
    specification: its six cases, tried in order, the first that applies
    deciding.  A target that is the empty string is external and its
    [href] is [null], so no [href] attribute is rendered; a link given
    neither [to] nor [href] has such a target. *)
Theorem classification_is_first_match_rule (props : Props.t) (to : RouteLocationRaw) :
  (isExternal ufo props to = true <->
     classification_rule (truthy_bool (Props.external props)) (Props.target props)
                         (fun s => hasProtocol ufo s true) to = External)
  /\ (to = ToString EmptyString ->
      isExternal ufo props to = true
      /\ href ufo options router_resolve baseURL props to = None)
  /\ (Props.to props = None -> Props.href props = None ->
      to_value ufo options router_resolve props = ToString EmptyString).
Proof.
  split; [|split].
  - unfold isExternal, classification_rule, isProtocolURL.
    destruct (truthy_bool (Props.external props)); [done |].
    destruct (Props.target props) as [| |t]; simpl.
    + destruct to as [s|o]; [|done].
      destruct (String.eqb s EmptyString); simpl; [done |].
      by destruct (hasProtocol ufo s true).
    + destruct to as [s|o]; [|done].
      destruct (String.eqb s EmptyString); simpl; [done |].
      by destruct (hasProtocol ufo s true).
    + destruct (truthy_string t && negb (String.eqb t "_self")); [done |].
      destruct to as [s|o]; [|done].
      destruct (String.eqb s EmptyString); simpl; [done |].
      by destruct (hasProtocol ufo s true).
  - intros ->. split.
    + unfold isExternal. simpl.
      destruct (truthy_bool (Props.external props)); [done |].
      by destruct (truthy (Props.target props) && _).
    + done.
  - intros Hto Hhref. apply empty_target_stays_empty.
    unfold raw_target. by rewrite Hto, Hhref.
Qed.

(** Normalisation leaves a string with a scheme alone unless the string
    starts with [http]. *)
Lemma non_http_scheme_unchanged (to : string) (ts : TrailingSlash) :
  hasProtocol ufo to false = true ->
  startsWith to "http" = false ->
  applyTrailingSlashBehavior ufo to ts = to.
Proof.
  intros Hp Hh. unfold applyTrailingSlashBehavior. by rewrite Hp, Hh.
Qed.

(** With exactly one [#], followed by a non-empty fragment, the part
    before it is normalised and the fragment appended as it is. *)
Lemma single_fragment_preserved (link fragment : string) (ts : TrailingSlash) :
  free_of "#" link = true ->
  free_of "#" fragment = true ->
  fragment <> EmptyString ->
  hasProtocol ufo (link ++ "#" ++ fragment) false
    && negb (startsWith (link ++ "#" ++ fragment) "http") = false ->
  applyTrailingSlashBehavior ufo (link ++ "#" ++ fragment) ts
  = normalizeFn ufo ts link true ++ "#" ++ fragment.
Proof.
  intros Hl Hf Hne Hp. unfold applyTrailingSlashBehavior. rewrite Hp.
  change ("#" ++ fragment) with (String "#" fragment).
  rewrite (split_app _ _ _ Hl), (split_free _ _ Hf).
  destruct fragment; [done | reflexivity].
Qed.

(** With a second [#], what follows it is lost: only the text between
    the first two [#] is appended. *)
Lemma second_hash_truncates (link middle rest : string) (ts : TrailingSlash) :
  free_of "#" link = true ->
  free_of "#" middle = true ->
  middle <> EmptyString ->
  hasProtocol ufo (link ++ "#" ++ middle ++ "#" ++ rest) false
    && negb (startsWith (link ++ "#" ++ middle ++ "#" ++ rest) "http") = false ->
  applyTrailingSlashBehavior ufo (link ++ "#" ++ middle ++ "#" ++ rest) ts
  = normalizeFn ufo ts link true ++ "#" ++ middle.
Proof.
  intros Hl Hm Hne Hp. unfold applyTrailingSlashBehavior. rewrite Hp.
  change ("#" ++ middle ++ "#" ++ rest) with (String "#" (middle ++ String "#" rest)).
  rewrite (split_app _ _ _ Hl), (split_app _ _ _ Hm).
  destruct middle; [done | reflexivity].
Qed.

(** C8.  Under a policy of [append] or [remove], a route object comes
    back with its [path] rewritten by the policy (the path it carries,
    or else the one the router resolves for it), its [name] cleared and
    its other fields as they were; and when the object carries a path,
    the result does not depend on the name it carried. *)
Theorem named_route_loses_name (ts : TrailingSlash) (o : RouteObject) :
  trailingSlash options = Some ts ->
  resolveTrailingSlashBehavior ufo options router_resolve (ToObject o)
  = ToObject
      {| name := None;
         path := Some (applyTrailingSlashBehavior ufo
                         (match path o with
                          | Some p => p
                          | None => loc_path (router_resolve (ToObject o))
                          end) ts);
         params := params o; query := query o; hash := hash o |}
  /\ (forall p n,
        path o = Some p ->
        resolveTrailingSlashBehavior ufo options router_resolve
          (ToObject {| name := n; path := path o; params := params o;
                       query := query o; hash := hash o |})
        = resolveTrailingSlashBehavior ufo options router_resolve (ToObject o)).
Proof.
  intros Hts. unfold resolveTrailingSlashBehavior. rewrite Hts. simpl.
  split; [done |]. intros p n Hp. by rewrite Hp.
Qed.

(** C9, as the code has it.  Under [noRel] the result is [null].
    Otherwise the first of the [rel] prop, the configured
    [externalRelAttribute] and the hardcoded default (which stands for
    [''] when [href] is null or empty) that is not [undefined] decides
    alone: a non-empty string is the result, while [null] or the empty
    string gives [null] without any later candidate being consulted. *)
Theorem rel_first_defined_decides (props : Props.t) (h : option string) :
  let result := rel options props h in
  let fallback :=
    match h with
    | Some s => if truthy_string s then Some DEFAULT_EXTERNAL_REL_ATTRIBUTE else None
    | None => None
    end in
  (truthy_bool (Props.noRel props) = true -> result = None)
  /\ (truthy_bool (Props.noRel props) = false ->
      (forall s, Props.rel props = Str s ->
                 result = if truthy_string s then Some s else None)
      /\ (Props.rel props = Null -> result = None)
      /\ (Props.rel props = Undefined ->
          (forall s, externalRelAttribute options = Str s ->
                     result = if truthy_string s then Some s else None)
          /\ (externalRelAttribute options = Null -> result = None)
          /\ (externalRelAttribute options = Undefined -> result = fallback))).
Proof.
  unfold rel. simpl. split.
  - by intros ->.
  - intros ->. split; [|split].
    + by intros s ->.
    + by intros ->.
    + intros ->. simpl. split; [|split].
      * by intros s ->.
      * by intros ->.
      * intros ->. simpl. destruct h as [[|c s]|]; done.
Qed.

(** C10.  In custom mode, an external target and no default slot make
    the render function return [null]: neither a [RouterLink], nor an
    anchor, nor the output of a slot. *)
Theorem custom_external_without_slot_renders_null
        (V : Type) (props : Props.t) (prefetched : bool) :
  truthy_bool (Props.custom props) = true ->
  isExternal ufo props (to_value ufo options router_resolve props) = true ->
  render ufo options router_resolve baseURL props None prefetched
  = @RenderNull V.
Proof.
  intros Hc He. unfold render. by rewrite He, Hc.
Qed.

End ResolverFacts.

(** ** The shared visibility observer *)

Section ObserverFacts.
Import Observer.
Variable CB : Type.
Lemma consistent_observe e (cb : CB) (st : Observer.t CB) :
  consistent st -> consistent (observe e cb st).
Proof.
  intros (Hiff & Hio & Hcount). unfold observe. split; [|split]; simpl.
  - split; [done |]. intros Hempty. by apply insert_non_empty in Hempty.
  - intros io1 [= <-]. simpl. rewrite dom_insert_L.
    destruct (observer st) as [io0|] eqn:Hobs; simpl.
    + destruct (Hio io0 eq_refl) as [-> Hlt]. done.
    + destruct Hiff as [Hiff _]. rewrite (Hiff eq_refl), dom_empty_L.
      split; [done | lia].
  - destruct (observer st); simpl in *; lia.
Qed.

Lemma consistent_unobserve e (st : Observer.t CB) :
  consistent st -> consistent (state_of (unobserveFn e st)).
Proof.
  intros (Hiff & Hio & Hcount). unfold unobserveFn.
  destruct (observer st) as [io|] eqn:Hobs; simpl.
  - destruct (Nat.eqb_spec (size (delete e (callbacks st))) 0) as [Hz|Hnz]; simpl.
    + apply map_size_empty_iff in Hz. split; [|split]; simpl; [done | done | lia].
    + split; [|split]; simpl.
      * split; [done |]. intros Hempty. by rewrite Hempty, map_size_empty in Hnz.
      * intros io' [= <-]. simpl. destruct (Hio io eq_refl) as [-> Hlt].
        by rewrite dom_delete_L.
      * lia.
  - destruct Hiff as [Hiff _]. rewrite (Hiff eq_refl), delete_empty.
    split; [|split]; simpl; [done | done | lia].
Qed.
Lemma consistent_init : consistent (@Observer.init CB).
Proof. split; [|split]; simpl; done. Qed.

Lemma consistent_run (ops : list (Op CB)) (st : Observer.t CB) :
  consistent st -> consistent (Observer.run ops st).
Proof.
  revert st. induction ops as [|op ops IH]; intros st Hst; [done |].
  simpl. apply IH. destruct op; simpl.
  - by apply consistent_observe.
  - by apply consistent_unobserve.
Qed.

(** C2.  After any sequence of [observe] calls and calls of the
    functions they returned: the shared watcher exists if and only if
    some element is registered; the native watchers constructed and not
    yet disconnected number one when it exists and none otherwise; it
    watches exactly the registered elements.  [observe] constructs a
    watcher only when there is none (none exists before the first call),
    and then a new one, never the one disposed of earlier; with a
    watcher present it keeps that one.  Releasing the last element
    disconnects the watcher and clears the reference. *)
Theorem watcher_exists_iff_element_registered (ops : list (Op CB)) :
  let st := Observer.run ops Observer.init in
  (is_Some (observer st) <-> callbacks st <> ∅)
  /\ constructed st = disconnected st + match observer st with Some _ => 1 | None => 0 end
  /\ (forall io, observer st = Some io -> io_targets io = dom (callbacks st))
  /\ (observer (@Observer.init CB) = None /\ constructed (@Observer.init CB) = 0)
  /\ (forall e cb,
        match observer st with
        | Some io =>
            constructed (observe e cb st) = constructed st
            /\ exists io', observer (observe e cb st) = Some io'
                           /\ io_id io' = io_id io
        | None =>
            constructed (observe e cb st) = S (constructed st)
            /\ exists io', observer (observe e cb st) = Some io'
                           /\ io_id io' = constructed st
        end)
  /\ (forall io, observer st = Some io -> io_id io < constructed st)
  /\ (forall e,
        is_Some (observer st) ->
        delete e (callbacks st) = ∅ ->
        let st' := state_of (unobserveFn e st) in
        observer st' = None /\ callbacks st' = ∅
        /\ disconnected st' = S (disconnected st)).
Proof.
  intros st.
  assert (consistent st) as (Hiff & Hio & Hcount)
    by apply consistent_run, consistent_init.
  split; [|split; [|split; [|split; [|split; [|split]]]]].
  - rewrite <- not_eq_None_Some. by rewrite Hiff.
  - done.
  - intros io Hobs. by destruct (Hio io Hobs).
  - done.
  - intros e cb. unfold observe.
    destruct (observer st) as [io|]; simpl; (split; [done | eauto]).
  - intros io Hobs. by destruct (Hio io Hobs).
  - intros e [io Hobs] Hempty. unfold unobserveFn.
    rewrite Hobs, Hempty, map_size_empty. simpl. done.
Qed.

(** What a further call of the function returned by [observe] does, for
    an element that is no longer registered: it changes nothing and
    returns when the shared watcher still exists, and throws, the
    registry being left as it was, when the watcher has been disposed
    of. *)
Theorem unobserve_again_needs_live_watcher (ops : list (Op CB)) (e : Element) :
  let st := Observer.run ops Observer.init in
  callbacks st !! e = None ->
  (is_Some (observer st) -> unobserveFn e st = Returned st)
  /\ (observer st = None -> unobserveFn e st = Threw st).
Proof.
  intros st Hne.
  assert (consistent st) as (Hiff & Hio & Hcount)
    by apply consistent_run, consistent_init.
  unfold unobserveFn. rewrite (delete_id _ _ Hne). split.
  - intros [io Hobs]. rewrite Hobs.
    destruct (Hio io Hobs) as [Htargets _].
    destruct (Nat.eqb_spec (size (callbacks st)) 0) as [Hz|Hnz].
    + apply map_size_empty_iff, Hiff in Hz. congruence.
    + f_equal. destruct st as [o c n d]. simpl in *. subst o. f_equal. f_equal.
      destruct io as [id targets]. simpl in *. f_equal.
      apply not_elem_of_dom in Hne. rewrite Htargets.
      apply set_eq. intros x. rewrite elem_of_difference, elem_of_singleton.
      split; [tauto |]. intros Hx. split; [done |]. by intros ->.
  - intros Hobs. rewrite Hobs. f_equal. destruct st. simpl in *. by subst.
Qed.

End ObserverFacts.

(** ** The idle-prefetch scheduler *)

Section SchedulerFacts.

Import Observer Scheduler.

Implicit Types (s : State) (i j : LinkId) (l : Link) (e : Element) (h : nat).

Lemma absent_no_new_work j s s' : no_new_work j s s' -> absent j s -> absent j s'.
Proof.
  intros (Hr & Hi & Hc) (Ar & Ai & Ac). split; [|split].
  - intros H. by apply Ar, Hr.
  - intros h H. by apply (Ai h), Hi.
  - intros e H. by apply (Ac e), Hc.
Qed.

Lemma callbacks_unobserveFn e (r : Observer.t LinkId) :
  callbacks (state_of (unobserveFn e r)) = delete e (callbacks r).
Proof.
  unfold unobserveFn. destruct (observer r); [|done].
  by destruct (Nat.eqb _ _).
Qed.

Lemma inert_frame j s s' :
  links s' !! j = links s !! j -> no_new_work j s s' ->
  inert_ok j s -> inert_ok j s'.
Proof.
  unfold inert_ok. intros -> Hw. destruct (links s !! j) as [l|].
  - intros H Hf. destruct (H Hf) as (? & ? & ? & ? & ? & ?).
    eauto 10 using absent_no_new_work.
  - by apply absent_no_new_work.
Qed.

Lemma inert_armed i l s :
  inert_ok i s -> links s !! i = Some l ->
  (i ∈ ready s \/ (exists h, idle s !! h = Some i)
   \/ (exists e, callbacks (registry s) !! e = Some i)
   \/ idleId l <> None \/ inflight l <> 0) ->
  shouldPrefetch_ l = true.
Proof.
  unfold inert_ok. intros H Hl Hw. rewrite Hl in H.
  destruct (shouldPrefetch_ l); [done |].
  destruct (H eq_refl) as (? & ? & ? & ? & ? & Hr & Hi & Hc).
  destruct Hw as [?|[[h ?]|[[e ?]|[?|?]]]]; try done.
  - by destruct (Hi h).
  - by destruct (Hc e).
Qed.

Lemma inert_exists i s :
  inert_ok i s ->
  (i ∈ ready s \/ (exists h, idle s !! h = Some i)
   \/ (exists e, callbacks (registry s) !! e = Some i)) ->
  exists l, links s !! i = Some l /\ shouldPrefetch_ l = true.
Proof.
  intros H Hw. destruct (links s !! i) as [l|] eqn:Hl.
  - exists l. split; [done |]. eapply inert_armed; eauto.
    destruct Hw as [?|[?|?]]; eauto.
  - unfold inert_ok in H. rewrite Hl in H. destruct H as (Hr & Hi & Hc).
    destruct Hw as [?|[[h ?]|[e ?]]]; try done.
    + by destruct (Hi h).
    + by destruct (Hc e).
Qed.

Lemma visibleCallback_inert i t s :
  callbacks (registry s) !! t = Some i ->
  (forall j, inert_ok j s) -> forall j, inert_ok j (visibleCallback i s).
Proof.
  intros Ht Hinv j.
  destruct (inert_exists i s (Hinv i)) as (l & Hl & Harmed); [eauto |].
  unfold visibleCallback. rewrite Hl.
  set (c := match unobserve l with
            | Some e => unobserveFn e (registry s)
            | None => Returned (registry s)
            end).
  assert (forall e, callbacks (state_of c) !! e = Some j ->
                    callbacks (registry s) !! e = Some j) as Hshrink.
  { intros e. unfold c. destruct (unobserve l); [|done].
    rewrite callbacks_unobserveFn. by intros [_ ?]%lookup_delete_Some. }
  destruct c as [r|r]; simpl in Hshrink.
  - destruct (decide (j = i)) as [->|Hne].
    + unfold inert_ok. simpl. rewrite lookup_insert_eq. simpl. congruence.
    + apply (inert_frame j s); [simpl; by rewrite lookup_insert_ne | | done].
      split; [done | split; [done | done]].
  - apply (inert_frame j s); [done | | done].
    split; [done | split; [done | done]].
Qed.


Lemma deliver_preserves (P : State -> Prop) :
  (forall i t s, callbacks (registry s) !! t = Some i -> P s ->
                 P (visibleCallback i s)) ->
  forall entries s, P s -> P (deliver registry visibleCallback entries s).
Proof.
  intros Hcb entries. unfold deliver.
  induction entries as [|entry entries IH]; intros s Hs; [done |].
  simpl. apply IH.
  destruct (callbacks (registry s) !! entry_target entry) as [i|] eqn:Hi; [|done].
  destruct (isVisible entry); [|done]. by apply (Hcb i (entry_target entry)).
Qed.

Lemma idleCallback_inert i s :
  (forall l, links s !! i = Some l -> shouldPrefetch_ l = true) ->
  (forall j, inert_ok j s) -> forall j, inert_ok j (idleCallback i s).
Proof.
  intros Harmed Hinv j. unfold idleCallback.
  destruct (links s !! i) as [l|] eqn:Hl; [|done].
  destruct (el l) as [e|]; [|done].
  destruct (decide (j = i)) as [->|Hne].
  - unfold inert_ok. simpl. rewrite lookup_insert_eq. simpl.
    rewrite (Harmed l eq_refl). done.
  - apply (inert_frame j s); [simpl; by rewrite lookup_insert_ne | | done].
    split; [done | split; [done |]]. simpl. intros e'.
    rewrite lookup_insert_Some. intros [[_ ?]|[_ ?]]; [congruence | done].
Qed.

Lemma step_inert ev s :
  (forall j, inert_ok j s) -> forall j, inert_ok j (step ev s).
Proof.
  intros Hinv. destruct ev as [i props cn ext|i node|i|i|h|i|entries|i|i]; simpl.
  - (* Setup *)
    destruct (links s !! i) as [l|] eqn:Hl; [done |]. intros j.
    destruct (decide (j = i)) as [->|Hne].
    + pose proof (Hinv i) as Hi.
      unfold inert_ok, absent, unscheduled, unregistered in Hi |- *.
      rewrite Hl in Hi.
      simpl. rewrite lookup_insert_eq. simpl. done.
    + apply (inert_frame j s); [simpl; by rewrite lookup_insert_ne | | done].
      by split; [|split].
  - (* Render *)
    destruct (links s !! i) as [l|] eqn:Hl; [|done]. intros j.
    destruct (decide (j = i)) as [->|Hne].
    + pose proof (Hinv i) as Hi.
      unfold inert_ok, absent, unscheduled, unregistered in Hi |- *.
      rewrite Hl in Hi.
      simpl. rewrite lookup_insert_eq. simpl. done.
    + apply (inert_frame j s); [simpl; by rewrite lookup_insert_ne | | done].
      by split; [|split].
  - (* Mount *)
    destruct (links s !! i) as [l|] eqn:Hl; [|done].
    destruct (phase l); try done. intros j.
    destruct (decide (j = i)) as [->|Hne].
    + pose proof (Hinv i) as Hi.
      unfold inert_ok, absent, unscheduled, unregistered in Hi |- *.
      rewrite Hl in Hi.
      destruct (shouldPrefetch_ l) eqn:Ha; simpl; rewrite lookup_insert_eq; simpl.
      * congruence.
      * intros _. by apply Hi.
    + apply (inert_frame j s); [| | done].
      * destruct (shouldPrefetch_ l); simpl; by rewrite lookup_insert_ne.
      * split; [|split]; [| by destruct (shouldPrefetch_ l)..].
        destruct (shouldPrefetch_ l); simpl; [|done].
        intros [H|H]%elem_of_union; [|done].
        apply elem_of_singleton in H. congruence.
  - (* NuxtReady *)
    destruct (decide (i ∈ ready s)) as [Hin|]; [|done]. intros j.
    destruct (inert_exists i s (Hinv i)) as (l & Hl & Harmed); [eauto |].
    unfold readyCallback. simpl. rewrite Hl. simpl.
    destruct (decide (j = i)) as [->|Hne].
    + unfold inert_ok. simpl. rewrite lookup_insert_eq. simpl. congruence.
    + apply (inert_frame j s); [simpl; by rewrite lookup_insert_ne | | done].
      split; [|split]; simpl; [by intros [? _]%elem_of_difference | | done].
      intros h. rewrite lookup_insert_Some.
      intros [[_ ?]|[_ ?]]; [congruence | done].
  - (* IdleFire *)
    destruct (idle s !! h) as [i|] eqn:Hh; [|done].
    destruct (inert_exists i s (Hinv i)) as (l & Hl & Harmed); [eauto |].
    apply idleCallback_inert.
    + simpl. intros l' Hl'. congruence.
    + intros j. apply (inert_frame j s); [done | | done].
      split; [done | split; [|done]]. simpl. intros h'.
      by intros [_ ?]%lookup_delete_Some.
  - (* IdleManual *)
    destruct (links s !! i) as [l|] eqn:Hl; [|done].
    destruct (idleId l) as [h|] eqn:Hid; [|done].
    apply idleCallback_inert; [|done].
    intros l' Hl'. eapply inert_armed; eauto.
    assert (l' = l) as -> by congruence. right. right. right. left. congruence.
  - (* Intersect *)
    apply (deliver_preserves (fun s => forall j, inert_ok j s)); [|done].
    intros i t s' Ht Hs'. by apply (visibleCallback_inert i t).
  - (* Settle *)
    unfold settle. destruct (links s !! i) as [l|] eqn:Hl; [|done].
    destruct (inflight l) as [|n] eqn:Hn; [done |]. intros j.
    destruct (decide (j = i)) as [->|Hne].
    + assert (shouldPrefetch_ l = true) as Ha.
      { eapply inert_armed; eauto. do 4 right. congruence. }
      unfold inert_ok. simpl. rewrite lookup_insert_eq. simpl. congruence.
    + apply (inert_frame j s); [simpl; by rewrite lookup_insert_ne | | done].
      by split; [|split].
  - (* Unmount *)
    destruct (links s !! i) as [l|] eqn:Hl; [|done].
    destruct (phase l); try done. intros j.
    destruct (shouldPrefetch_ l) eqn:Ha.
    + unfold onBeforeUnmount. simpl. rewrite lookup_insert_eq. simpl.
      set (s1 := match idleId l with
                 | Some h => if Nat.eqb h 0 then _ else _
                 | None => _
                 end).
      assert (links s1 = <[i := with_phase Unmounted l]> (links s)
              /\ ready s1 = ready s /\ registry s1 = registry s
              /\ forall h, idle s1 !! h = Some j -> idle s !! h = Some j)
        as (Hlinks & Hready & Hreg & Hidle).
      { unfold s1. destruct (idleId l) as [h|]; [|done].
        destruct (Nat.eqb h 0); [done |]. simpl. repeat split.
        intros h'. by intros [_ ?]%lookup_delete_Some. }
      clearbody s1.
      set (c := match unobserve l with
                | Some e => unobserveFn e (registry s1)
                | None => Returned (registry s1)
                end).
      assert (forall e, callbacks (state_of c) !! e = Some j ->
                        callbacks (registry s) !! e = Some j) as Hshrink.
      { intros e. unfold c. destruct (unobserve l); [|by rewrite Hreg].
        rewrite callbacks_unobserveFn, Hreg. by intros [_ ?]%lookup_delete_Some. }
      assert (inert_ok j
                (match c with
                 | Threw r => set_registry r s1
                 | Returned r =>
                     set_link i (with_unobserve None (with_phase Unmounted l))
                              (set_registry r s1)
                 end)) as Hgoal.
      { destruct (decide (j = i)) as [->|Hne].
        - unfold inert_ok. destruct c; simpl; rewrite ?Hlinks, ?lookup_insert_eq;
            simpl; congruence.
        - apply (inert_frame j s); [| | done].
          + destruct c; simpl; rewrite Hlinks, ?lookup_insert_ne by done;
              by rewrite ?lookup_insert_ne.
          + destruct c; (split; [|split]); simpl; rewrite ?Hready; done. }
      unfold c in Hgoal. destruct (unobserve l); [|done].
      by destruct (unobserveFn _ _).
    + destruct (decide (j = i)) as [->|Hne].
      * pose proof (Hinv i) as Hi.
      unfold inert_ok, absent, unscheduled, unregistered in Hi |- *.
      rewrite Hl in Hi.
        simpl. rewrite lookup_insert_eq. simpl. done.
      * apply (inert_frame j s); [simpl; by rewrite lookup_insert_ne | | done].
        by split; [|split].
Qed.


Lemma link_frame j s s' :
  links s' !! j = links s !! j -> no_new_work j s s' ->
  link_ok j s -> link_ok j s'.
Proof.
  unfold link_ok. intros -> Hw. destruct (links s !! j) as [l|].
  - destruct Hw as (Hr & Hi & Hc).
    intros (Hle & Hnone & Hready & Hcreated & Hidle & Hcbs).
    split; [done |]. split; [|split; [|split; [done |split]]].
    + intros Hid. destruct (Hnone Hid) as (Hz & Hu & Hg). split; [done |].
      split; [intros h H; by apply (Hu h), Hi | intros e H; by apply (Hg e), Hc].
    + intros H. by apply Hready, Hr.
    + intros h H. destruct (Hidle h (Hi h H)) as (Hz & Hz' & Hg).
      split; [done | split; [done |]]. intros e H'. by apply (Hg e), Hc.
    + intros e H. by apply Hcbs, Hc.
  - by apply absent_no_new_work.
Qed.

Lemma link_exists i s :
  link_ok i s ->
  (i ∈ ready s \/ (exists h, idle s !! h = Some i)
   \/ (exists e, callbacks (registry s) !! e = Some i)) ->
  exists l, links s !! i = Some l.
Proof.
  intros H Hw. destruct (links s !! i) as [l|] eqn:Hl; [eauto |].
  unfold link_ok in H. rewrite Hl in H. destruct H as (Hr & Hi & Hc).
  destruct Hw as [?|[[h ?]|[e ?]]]; try done.
  - by destruct (Hi h).
  - by destruct (Hc e).
Qed.

Lemma visibleCallback_ok i t s :
  callbacks (registry s) !! t = Some i ->
  scheduled_ok s -> scheduled_ok (visibleCallback i s).
Proof.
  intros Ht [Hh Hinv].
  destruct (link_exists i s (Hinv i)) as (l & Hl); [eauto |].
  pose proof (Hinv i) as Hi. unfold link_ok in Hi. rewrite Hl in Hi.
  destruct Hi as (Hle & Hnone & Hready & Hcreated & Hidle & Hcbs).
  destruct (Hcbs t Ht) as [Hun Hzero].
  unfold visibleCallback. rewrite Hl, Hun.
  pose proof (callbacks_unobserveFn t (registry s)) as Hdel.
  destruct (unobserveFn t (registry s)) as [r|r]; simpl in Hdel.
  - split; [done |]. intros j. destruct (decide (j = i)) as [->|Hne].
    + unfold link_ok, unscheduled, unregistered. simpl.
      rewrite lookup_insert_eq, Hdel. simpl.
      split; [lia |]. split; [|split; [done | split; [done | split]]].
      * intros Hid. by destruct (Hnone Hid) as (_ & _ & Hg), (Hg t).
      * intros h H. by destruct (Hidle h H) as (_ & _ & Hg), (Hg t).
      * intros e [Hne H]%lookup_delete_Some.
        destruct (Hcbs e H). congruence.
    + apply (link_frame j s); [simpl; by rewrite lookup_insert_ne | | done].
      split; [done | split; [done |]]. simpl. rewrite Hdel.
      intros e. by intros [_ ?]%lookup_delete_Some.
  - split; [done |]. intros j.
    apply (link_frame j s); [done | | done].
    split; [done | split; [done |]]. simpl. rewrite Hdel.
    intros e. by intros [_ ?]%lookup_delete_Some.
Qed.


Lemma idleCallback_ok h i s :
  idle s !! h = Some i ->
  scheduled_ok s -> scheduled_ok (idleCallback i (cancelIdleCallback h s)).
Proof.
  intros Hh [Hhandles Hinv].
  assert (forall j, no_new_work j s (cancelIdleCallback h s)) as Hcancel.
  { intros j. split; [done | split; [|done]]. simpl.
    intros h'. by intros [_ ?]%lookup_delete_Some. }
  assert (handles_ok (cancelIdleCallback h s)) as Hhandles'.
  { destruct Hhandles as [Hn Hpos]. split; [done |]. simpl.
    intros h' [x [_ Hx]%lookup_delete_Some]. apply Hpos. eauto. }
  unfold idleCallback. simpl.
  destruct (links s !! i) as [l|] eqn:Hl;
    [|split; [done |]; intros j; by apply (link_frame j s)].
  destruct (el l) as [e|];
    [|split; [done |]; intros j; by apply (link_frame j s)].
  split; [done |]. intros j. destruct (decide (j = i)) as [->|Hne].
  - pose proof (Hinv i) as Hi. unfold link_ok in Hi. rewrite Hl in Hi.
    destruct Hi as (Hle & Hnone & Hready & Hcreated & Hidle & Hcbs).
    destruct (Hidle h Hh) as (Hid & Hzero & Hunreg).
    unfold link_ok, unscheduled, unregistered. simpl.
    rewrite lookup_insert_eq. simpl.
    split; [done |]. split; [|split; [done | split; [done | split]]].
    + intros Hnone'. congruence.
    + intros h' [Hne H]%lookup_delete_Some.
      destruct (Hidle h' H) as (Hid' & _). congruence.
    + intros e' [[<- _]|[_ H]]%lookup_insert_Some; [done |].
      by destruct (Hunreg e').
  - apply (link_frame j s); [simpl; by rewrite lookup_insert_ne | | done].
    split; [done | split]; simpl.
    + intros h'. by intros [_ ?]%lookup_delete_Some.
    + intros e'. rewrite lookup_insert_Some.
      intros [[_ ?]|[_ ?]]; [congruence | done].
Qed.

Lemma step_ok ev s :
  host_event ev = true -> scheduled_ok s -> scheduled_ok (step ev s).
Proof.
  intros Hhost [Hhandles Hinv].
  destruct ev as [i props cn ext|i node|i|i|h|i|entries|i|i]; simpl;
    try discriminate Hhost.
  - (* Setup *)
    destruct (links s !! i) as [l|] eqn:Hl; [done |].
    split; [done |]. intros j. destruct (decide (j = i)) as [->|Hne].
    + pose proof (Hinv i) as Hi. unfold link_ok in Hi. rewrite Hl in Hi.
      destruct Hi as (Hr & Hi & Hc).
      unfold link_ok. simpl. rewrite lookup_insert_eq. simpl.
      split; [lia |]. split; [done |]. split; [done |]. split; [done |].
      split; [intros h H; by destruct (Hi h) | intros e H; by destruct (Hc e)].
    + apply (link_frame j s); [simpl; by rewrite lookup_insert_ne | | done].
      by split; [|split].
  - (* Render *)
    destruct (links s !! i) as [l|] eqn:Hl; [|done].
    split; [done |]. intros j. destruct (decide (j = i)) as [->|Hne].
    + pose proof (Hinv i) as Hi. unfold link_ok in Hi |- *. rewrite Hl in Hi.
      simpl. rewrite lookup_insert_eq. simpl. done.
    + apply (link_frame j s); [simpl; by rewrite lookup_insert_ne | | done].
      by split; [|split].
  - (* Mount *)
    destruct (links s !! i) as [l|] eqn:Hl; [|done].
    destruct (phase l) eqn:Hphase; try done.
    assert (handles_ok (if shouldPrefetch_ l
                        then onMounted i (set_link i (with_phase Mounted l) s)
                        else set_link i (with_phase Mounted l) s)) as Hh'
      by by destruct (shouldPrefetch_ l).
    split; [done |]. intros j. destruct (decide (j = i)) as [->|Hne].
    + pose proof (Hinv i) as Hi. unfold link_ok in Hi. rewrite Hl in Hi.
      destruct Hi as (Hle & Hnone & Hready & Hcreated & Hidle & Hcbs).
      unfold link_ok.
      destruct (shouldPrefetch_ l); simpl; rewrite lookup_insert_eq; simpl;
        (split; [done |]; split; [done |]; split; [|done]).
      * intros _. split; [by apply Hcreated | done].
      * intros H. split; [by apply Hcreated | done].
    + apply (link_frame j s); [| | done].
      * destruct (shouldPrefetch_ l); simpl; by rewrite lookup_insert_ne.
      * split; [|split]; [| by destruct (shouldPrefetch_ l)..].
        destruct (shouldPrefetch_ l); simpl; [|done].
        intros [H|H]%elem_of_union; [|done].
        apply elem_of_singleton in H. congruence.
  - (* NuxtReady *)
    destruct (decide (i ∈ ready s)) as [Hin|]; [|done].
    destruct (link_exists i s (Hinv i)) as (l & Hl); [eauto |].
    unfold readyCallback. simpl. rewrite Hl. simpl.
    destruct Hhandles as [Hn Hpos]. split.
    + split; simpl; [lia |]. intros h [x Hx].
      apply lookup_insert_Some in Hx as [[<- _]|[_ Hx]]; [done |].
      apply Hpos. eauto.
    + intros j. destruct (decide (j = i)) as [->|Hne].
      * pose proof (Hinv i) as Hi. unfold link_ok in Hi. rewrite Hl in Hi.
        destruct Hi as (Hle & Hnone & Hready & Hcreated & Hidle & Hcbs).
        destruct (Hready Hin) as [Hid Hph].
        destruct (Hnone Hid) as (Hzero & Hunsched & Hunreg).
        unfold link_ok, unscheduled, unregistered. simpl.
        rewrite lookup_insert_eq. simpl.
        split; [done |]. split; [done |]. split; [|split; [done | split]].
        -- intros [_ Hout]%elem_of_difference.
           destruct Hout. by apply elem_of_singleton.
        -- intros h [[<- _]|[_ H]]%lookup_insert_Some; [done |].
           by destruct (Hunsched h).
        -- intros e H. by destruct (Hunreg e).
      * apply (link_frame j s); [simpl; by rewrite lookup_insert_ne | | done].
        split; [|split]; simpl; [by intros [? _]%elem_of_difference | | done].
        intros h. rewrite lookup_insert_Some.
        intros [[_ ?]|[_ ?]]; [congruence | done].
  - (* IdleFire *)
    destruct (idle s !! h) as [i|] eqn:Hh; [|done].
    by apply idleCallback_ok.
  - (* Intersect *)
    apply (deliver_preserves scheduled_ok); [|done].
    intros i t s' Ht Hs'. by apply (visibleCallback_ok i t).
  - (* Settle *)
    unfold settle. destruct (links s !! i) as [l|] eqn:Hl; [|done].
    destruct (inflight l) as [|n]; [done |].
    split; [done |]. intros j. destruct (decide (j = i)) as [->|Hne].
    + pose proof (Hinv i) as Hi. unfold link_ok in Hi |- *. rewrite Hl in Hi.
      simpl. rewrite lookup_insert_eq. simpl. done.
    + apply (link_frame j s); [simpl; by rewrite lookup_insert_ne | | done].
      by split; [|split].
  - (* Unmount *)
    destruct (links s !! i) as [l|] eqn:Hl; [|done].
    destruct (phase l) eqn:Hphase; try done.
    pose proof (Hinv i) as Hi. unfold link_ok in Hi. rewrite Hl in Hi.
    destruct Hi as (Hle & Hnone & Hready & Hcreated & Hidle & Hcbs).
    destruct (shouldPrefetch_ l) eqn:Ha.
    + unfold onBeforeUnmount. simpl. rewrite lookup_insert_eq. simpl.
      set (s1 := match idleId l with
                 | Some h => if Nat.eqb h 0 then _ else _
                 | None => _
                 end).
      assert (links s1 = <[i := with_phase Unmounted l]> (links s)
              /\ ready s1 = ready s /\ registry s1 = registry s
              /\ next_idle s1 = next_idle s
              /\ forall h j, idle s1 !! h = Some j -> idle s !! h = Some j)
        as (Hlinks & Hrdy & Hreg & Hnext & Hidle1).
      { unfold s1. destruct (idleId l) as [h|]; [|done].
        destruct (Nat.eqb h 0); [done |]. simpl. repeat split.
        intros h' j. by intros [_ ?]%lookup_delete_Some. }
      clearbody s1.
      set (c := match unobserve l with
                | Some e => unobserveFn e (registry s1)
                | None => Returned (registry s1)
                end).
      assert (forall e j, callbacks (state_of c) !! e = Some j ->
                          callbacks (registry s) !! e = Some j) as Hshrink.
      { intros e j. unfold c. destruct (unobserve l); [|by rewrite Hreg].
        rewrite callbacks_unobserveFn, Hreg. by intros [_ ?]%lookup_delete_Some. }
      assert (forall e, callbacks (state_of c) !! e <> Some i) as Hgone.
      { intros e. unfold c. destruct (unobserve l) as [e0|] eqn:Hun.
        - rewrite callbacks_unobserveFn, Hreg.
          intros [Hne H]%lookup_delete_Some. destruct (Hcbs e H). congruence.
        - simpl. rewrite Hreg. intros H. destruct (Hcbs e H). congruence. }
      assert (scheduled_ok
                (match c with
                 | Threw r => set_registry r s1
                 | Returned r =>
                     set_link i (with_unobserve None (with_phase Unmounted l))
                              (set_registry r s1)
                 end)) as Hgoal.
      { split.
        - destruct Hhandles as [Hn Hpos].
          destruct c; (split; simpl; [by rewrite Hnext |]);
            intros h [j Hj]; apply Hpos; eauto.
        - intros j. destruct (decide (j = i)) as [->|Hne].
          + unfold link_ok, unscheduled, unregistered.
            destruct c; simpl in *; rewrite ?Hlinks, ?lookup_insert_eq; simpl;
              rewrite ?Hrdy;
              (split; [done |]; split; [|split; [|split; [done | split]]]).
            all: try (intros H; split; [by apply Hready | done]).
            all: try (intros e H; by destruct (Hgone e)).
            all: try (intros Hid; destruct (Hnone Hid) as (Hz & Hu & _);
                      split; [done |]; split; [|done];
                      intros h H; by apply (Hu h), Hidle1).
            all: intros h H; destruct (Hidle h (Hidle1 h i H)) as (Hz & Hz' & _);
              split; [done | split; [done | done]].
          + apply (link_frame j s); [| | done].
            * destruct c; simpl; rewrite Hlinks, ?lookup_insert_ne by done;
                by rewrite ?lookup_insert_ne.
            * destruct c; (split; [|split]); simpl; rewrite ?Hrdy; eauto. }
      unfold c in Hgoal. destruct (unobserve l); [|done].
      by destruct (unobserveFn _ _).
    + split; [done |]. intros j. destruct (decide (j = i)) as [->|Hne].
      * unfold link_ok. simpl. rewrite lookup_insert_eq. simpl.
        split; [done |]. split; [done |]. split; [|done].
        intros H. split; [by apply Hready | done].
      * apply (link_frame j s); [simpl; by rewrite lookup_insert_ne | | done].
        by split; [|split].
Qed.


Lemma run_app tr1 tr2 s : run (tr1 ++ tr2) s = run tr2 (run tr1 s).
Proof. unfold run. by rewrite fold_left_app. Qed.

Lemma scheduled_ok_init : scheduled_ok init.
Proof.
  split; [split; simpl; [lia |]; intros h [x Hx]; by rewrite lookup_empty in Hx |].
  intros i. unfold link_ok, absent, unscheduled, unregistered. simpl.
  rewrite lookup_empty.
  split; [apply not_elem_of_empty | split; intros x; by rewrite lookup_empty].
Qed.

Lemma run_ok tr s :
  forallb host_event tr = true -> scheduled_ok s -> scheduled_ok (run tr s).
Proof.
  revert s. induction tr as [|ev tr IH]; intros s Hhost Hs; [done |].
  simpl in Hhost. apply andb_true_iff in Hhost as [Hev Htr].
  simpl. apply IH; [done |]. by apply step_ok.
Qed.

Lemma inert_init : forall j, inert_ok j init.
Proof.
  intros j. unfold inert_ok, absent, unscheduled, unregistered. simpl.
  rewrite lookup_empty.
  split; [apply not_elem_of_empty | split; intros x; by rewrite lookup_empty].
Qed.

Lemma run_inert tr s :
  (forall j, inert_ok j s) -> forall j, inert_ok j (run tr s).
Proof.
  revert s. induction tr as [|ev tr IH]; intros s Hs; [done |].
  simpl. apply IH. by apply step_inert.
Qed.

(** *** A link that is not registered stays silent *)

Lemma hook_calls_set_link i j l l' s :
  links s !! j = Some l -> hookCalls l' = hookCalls l ->
  hook_calls i (set_link j l' s) = hook_calls i s.
Proof.
  intros Hl Hsame. unfold hook_calls. simpl.
  destruct (decide (i = j)) as [->|Hne].
  - by rewrite lookup_insert_eq, Hl.
  - by rewrite lookup_insert_ne.
Qed.

Lemma visibleCallback_silent i n j t s :
  callbacks (registry s) !! t = Some j ->
  silent i n s -> silent i n (visibleCallback j s).
Proof.
  intros Ht [Hun Hn].
  assert (j <> i) as Hne by (intros ->; by destruct (Hun t)).
  unfold visibleCallback. destruct (links s !! j) as [l|] eqn:Hl; [|done].
  set (c := match unobserve l with
            | Some e => unobserveFn e (registry s)
            | None => Returned (registry s)
            end).
  assert (forall e, callbacks (state_of c) !! e <> Some i) as Hshrink.
  { intros e. unfold c. destruct (unobserve l); [|apply Hun].
    rewrite callbacks_unobserveFn. intros [_ H]%lookup_delete_Some.
    by destruct (Hun e). }
  destruct c as [r|r]; simpl in Hshrink; split; try done.
  unfold hook_calls. simpl. by rewrite lookup_insert_ne.
Qed.

Lemma idleCallback_silent i n j s :
  (j = i -> forall l, links s !! i = Some l -> el l = None) ->
  silent i n s -> silent i n (idleCallback j s).
Proof.
  intros Hel [Hun Hn]. unfold idleCallback.
  destruct (links s !! j) as [l|] eqn:Hl; [|done].
  destruct (el l) as [e|] eqn:He; [|done].
  assert (j <> i) as Hne.
  { intros ->. specialize (Hel eq_refl l Hl). congruence. }
  split.
  - intros e'. simpl. rewrite lookup_insert_Some.
    intros [[_ ?]|[_ H]]; [congruence | by destruct (Hun e')].
  - by rewrite (hook_calls_set_link i j l).
Qed.

Lemma step_silent i n ev s :
  arms_observation i ev s = false ->
  silent i n s -> silent i n (step ev s).
Proof.
  intros Harm [Hun Hn].
  destruct ev as [j props cn ext|j node|j|j|h|j|entries|j|j]; simpl.
  - destruct (links s !! j) as [l|] eqn:Hl; [done |]. split; [done |].
    unfold hook_calls in *. simpl. destruct (decide (i = j)) as [->|Hne].
    + rewrite lookup_insert_eq. by rewrite Hl in Hn.
    + by rewrite lookup_insert_ne.
  - destruct (links s !! j) as [l|] eqn:Hl; [|done]. split; [done |].
    by rewrite (hook_calls_set_link i j l).
  - destruct (links s !! j) as [l|] eqn:Hl; [|done].
    destruct (phase l); try done.
    destruct (shouldPrefetch_ l); (split; [done |]);
      [change (hook_calls i (onMounted j ?s)) with (hook_calls i s) |];
      by rewrite (hook_calls_set_link i j l).
  - destruct (decide (j ∈ ready s)); [|done].
    unfold readyCallback. simpl.
    destruct (links s !! j) as [l|] eqn:Hl; [|done]. simpl. split; [done |].
    unfold hook_calls in *. simpl. destruct (decide (i = j)) as [->|Hne].
    + rewrite lookup_insert_eq. by rewrite Hl in Hn.
    + by rewrite lookup_insert_ne.
  - destruct (idle s !! h) as [j|] eqn:Hh; [|done].
    apply idleCallback_silent; [|done].
    intros -> l Hl. simpl in Hl. unfold arms_observation in Harm.
    rewrite Hl in Harm. destruct (el l); [|done].
    by rewrite bool_decide_eq_false in Harm.
  - destruct (links s !! j) as [l|] eqn:Hl; [|done].
    destruct (idleId l) eqn:Hid; [|done].
    apply idleCallback_silent; [|done].
    intros -> l' Hl'. unfold arms_observation in Harm.
    rewrite Hl in Harm. assert (l' = l) as -> by congruence.
    destruct (el l); [|done]. rewrite Hid, andb_true_r in Harm.
    by rewrite bool_decide_eq_false in Harm.
  - apply (deliver_preserves (silent i n)); [|done].
    intros j t s' Ht Hs'. by apply (visibleCallback_silent i n j t).
  - unfold settle. destruct (links s !! j) as [l|] eqn:Hl; [|done].
    destruct (inflight l); [done |]. split; [done |].
    by rewrite (hook_calls_set_link i j l).
  - destruct (links s !! j) as [l|] eqn:Hl; [|done].
    destruct (phase l); try done.
    assert (silent i n (set_link j (with_phase Unmounted l) s)) as Hs'.
    { split; [done |]. by rewrite (hook_calls_set_link i j l). }
    destruct (shouldPrefetch_ l); [|done].
    unfold onBeforeUnmount. simpl. rewrite lookup_insert_eq.
    set (s' := set_link j (with_phase Unmounted l) s) in *.
    set (s1 := match idleId (with_phase Unmounted l) with
               | Some h => if Nat.eqb h 0 then _ else _
               | None => _
               end).
    assert (silent i n s1 /\ links s1 !! j = Some (with_phase Unmounted l))
      as [[Hun1 Hn1] Hl1].
    { unfold s1. destruct (idleId _) as [h|]; [|split; [done |]; simpl; apply lookup_insert_eq].
      destruct (Nat.eqb h 0); split; try done; simpl; apply lookup_insert_eq. }
    clearbody s1. simpl.
    destruct (unobserve l) as [e|].
    + pose proof (callbacks_unobserveFn e (registry s1)) as Hdel.
      assert (forall e', callbacks (state_of (unobserveFn e (registry s1))) !! e'
                         <> Some i) as Hshrink.
      { intros e'. rewrite Hdel. intros [_ H]%lookup_delete_Some.
        by destruct (Hun1 e'). }
      destruct (unobserveFn e (registry s1)) as [r|r]; simpl in Hshrink;
        (split; [done |]); [|done].
      by rewrite (hook_calls_set_link i j (with_phase Unmounted l)).
    + split; [done |].
      by rewrite (hook_calls_set_link i j (with_phase Unmounted l)).
Qed.

Lemma run_silent i n tr s :
  never_arms i tr s = true -> silent i n s -> silent i n (run tr s).
Proof.
  revert s. induction tr as [|ev tr IH]; intros s Harm Hs; [done |].
  simpl in Harm. apply andb_true_iff in Harm as [Hev Htr].
  apply negb_true_iff in Hev. simpl. apply IH; [done |]. by apply step_silent.
Qed.


Lemma set_up_update i b s s' : updates_a_link s s' -> set_up i b s -> set_up i b s'.
Proof.
  intros [Heq|(j & l & l' & Hl & Hsame & Heq)] (l0 & Hl0 & Hb); unfold set_up;
    rewrite Heq; [eauto |].
  destruct (decide (i = j)) as [->|Hne].
  - rewrite lookup_insert_eq. exists l'. split; [done |]. congruence.
  - rewrite lookup_insert_ne by done. eauto.
Qed.

Lemma visibleCallback_updates j s : updates_a_link s (visibleCallback j s).
Proof.
  unfold visibleCallback. destruct (links s !! j) as [l|] eqn:Hl; [|by left].
  destruct (match unobserve l with
            | Some e => unobserveFn e (registry s)
            | None => Returned (registry s)
            end); [|by left].
  right. eexists j, l, _. split; [done |]. split; [|done]. done.
Qed.

Lemma idleCallback_updates j s : updates_a_link s (idleCallback j s).
Proof.
  unfold idleCallback. destruct (links s !! j) as [l|] eqn:Hl; [|by left].
  destruct (el l); [|by left].
  right. eexists j, l, _. split; [done |]. split; [|done]. done.
Qed.

Lemma onBeforeUnmount_updates j s : updates_a_link s (onBeforeUnmount j s).
Proof.
  unfold onBeforeUnmount. destruct (links s !! j) as [l|] eqn:Hl; [|by left].
  set (s1 := match idleId l with
             | Some h => if Nat.eqb h 0 then _ else _
             | None => _
             end).
  assert (links s1 = links s) as Hlinks.
  { unfold s1. destruct (idleId l) as [h|]; [|done]. by destruct (Nat.eqb h 0). }
  clearbody s1.
  destruct (unobserve l) as [e|].
  - destruct (unobserveFn e (registry s1)); [|by left].
    right. eexists j, l, _. split; [done |]. split; [|simpl; by rewrite Hlinks].
    done.
  - right. eexists j, l, _. split; [done |]. split; [|simpl; by rewrite Hlinks].
    done.
Qed.

Lemma step_set_up i b ev s : set_up i b s -> set_up i b (step ev s).
Proof.
  intros Hs.
  destruct ev as [j props cn ext|j node|j|j|h|j|entries|j|j]; simpl.
  - destruct (links s !! j) as [l|] eqn:Hl; [done |].
    destruct Hs as (l0 & Hl0 & Hb). exists l0. split; [|done]. simpl.
    rewrite lookup_insert_ne; [done |]. intros ->. congruence.
  - destruct (links s !! j) as [l|] eqn:Hl; [|done].
    apply (set_up_update i b s); [|done].
    right. eexists j, l, _. split; [done |]. split; [|done]. done.
  - destruct (links s !! j) as [l|] eqn:Hl; [|done].
    destruct (phase l); try done.
    apply (set_up_update i b s); [|done].
    right. exists j, l, (with_phase Mounted l). split; [done |]. split; [done |].
    by destruct (shouldPrefetch_ l).
  - destruct (decide (j ∈ ready s)); [|done].
    apply (set_up_update i b s); [|done].
    unfold readyCallback. simpl. destruct (links s !! j) as [l|] eqn:Hl; [|by left].
    right. eexists j, l, _. split; [done |]. split; [|done]. done.
  - destruct (idle s !! h) as [j|]; [|done].
    apply (set_up_update i b (cancelIdleCallback h s)); [|done].
    apply idleCallback_updates.
  - destruct (links s !! j) as [l|] eqn:Hl; [|done].
    destruct (idleId l); [|done].
    apply (set_up_update i b s); [|done]. apply idleCallback_updates.
  - apply (deliver_preserves (set_up i b)); [|done].
    intros j t s' _ Hs'. apply (set_up_update i b s'); [|done].
    apply visibleCallback_updates.
  - apply (set_up_update i b s); [|done]. unfold settle.
    destruct (links s !! j) as [l|] eqn:Hl; [|by left].
    destruct (inflight l); [by left |].
    right. eexists j, l, _. split; [done |]. split; [|done]. done.
  - destruct (links s !! j) as [l|] eqn:Hl; [|done].
    destruct (phase l); try done.
    assert (set_up i b (set_link j (with_phase Unmounted l) s)) as Hs'.
    { apply (set_up_update i b s); [|done].
      right. exists j, l, (with_phase Unmounted l). done. }
    destruct (shouldPrefetch_ l); [|done].
    eapply set_up_update; [apply onBeforeUnmount_updates | done].
Qed.

Lemma run_set_up i b tr s : set_up i b s -> set_up i b (run tr s).
Proof.
  revert s. induction tr as [|ev tr IH]; intros s Hs; [done |].
  simpl. apply IH. by apply step_set_up.
Qed.

(** C1.  Along any run of host events, whatever the watcher delivers
    and however often, the prefetch hook is called at most once for a
    link instance.  The visibility callback first calls the stored
    [unobserve] and clears it, and only then starts the prefetch: once
    the callback of a registered link has run, that link is no longer
    registered, and if the prefetch was started its handle is
    cleared. *)
Theorem visibility_prefetch_at_most_once (tr : list Event) (i : LinkId) :
  forallb host_event tr = true ->
  let s := run tr init in
  hook_calls i s <= 1
  /\ (forall entries, hook_calls i (step (Intersect entries) s) <= 1)
  /\ (forall t, callbacks (registry s) !! t = Some i ->
                let s' := visibleCallback i s in
                unregistered i s'
                /\ (hook_calls i s' = 1 ->
                    exists l, links s' !! i = Some l /\ unobserve l = None)).
Proof.
  intros Hhost s.
  assert (scheduled_ok s) as Hs by (by apply run_ok, scheduled_ok_init).
  assert (forall s0, scheduled_ok s0 -> hook_calls i s0 <= 1) as Hbound.
  { intros s0 [_ Hinv]. specialize (Hinv i). unfold link_ok, hook_calls in *.
    destruct (links s0 !! i); [by destruct Hinv | lia]. }
  split; [by apply Hbound |]. split.
  - intros entries. apply Hbound. by apply step_ok.
  - intros t Ht s'.
    assert (scheduled_ok s') as [_ Hinv'] by (by apply (visibleCallback_ok i t)).
    destruct Hs as [_ Hinv].
    destruct (link_exists i s (Hinv i)) as (l & Hl); [eauto |].
    pose proof (Hinv i) as Hi. unfold link_ok in Hi. rewrite Hl in Hi.
    destruct Hi as (_ & _ & _ & _ & _ & Hcbs).
    destruct (Hcbs t Ht) as [Hun Hzero].
    pose proof (callbacks_unobserveFn t (registry s)) as Hdel.
    unfold s', visibleCallback, unregistered, hook_calls. rewrite Hl, Hun.
    destruct (unobserveFn t (registry s)) as [r|r]; simpl in *.
    + rewrite lookup_insert_eq, Hdel. split; [|eauto].
      intros e [Hne H]%lookup_delete_Some. destruct (Hcbs e H). congruence.
    + rewrite Hl, Hdel. split; [|lia].
      intros e [Hne H]%lookup_delete_Some. destruct (Hcbs e H). congruence.
Qed.

(** What [onBeforeUnmount] achieves by itself.  When an armed, mounted
    link is unmounted after any run of host events, no idle callback of
    the link remains in the host's table and the link is no longer
    registered with the observer.  From then on the prefetch hook is not
    called for it, whatever happens and even if its idle callback is
    invoked by hand, as long as no run of that callback finds an element
    in the link's element reference. *)
Lemma unmount_cancels_and_releases (pre post : list Event) (i : LinkId) (l : Link) :
  forallb host_event pre = true ->
  links (run pre init) !! i = Some l ->
  phase l = Mounted ->
  shouldPrefetch_ l = true ->
  let s1 := step (Unmount i) (run pre init) in
  unscheduled i s1
  /\ unregistered i s1
  /\ (never_arms i post s1 = true ->
      hook_calls i (run post s1) = hook_calls i s1).
Proof.
  intros Hhost Hl Hphase Harmed s1.
  set (s := run pre init) in *.
  assert (scheduled_ok s) as [[Hn Hpos] Hinv] by (by apply run_ok, scheduled_ok_init).
  pose proof (Hinv i) as Hi. unfold link_ok in Hi. rewrite Hl in Hi.
  destruct Hi as (Hle & Hnone & Hready & Hcreated & Hidle & Hcbs).
  assert (unscheduled i s1 /\ unregistered i s1) as [Hunsched Hunreg].
  { unfold s1. simpl. rewrite Hl, Hphase, Harmed.
    unfold onBeforeUnmount. simpl. rewrite lookup_insert_eq. simpl.
    set (s' := set_link i (with_phase Unmounted l) s).
    set (s2 := match idleId l with
               | Some h => if Nat.eqb h 0 then s' else cancelIdleCallback h s'
               | None => s'
               end).
    assert (unscheduled i s2 /\ registry s2 = registry s) as [Hu2 Hreg].
    { unfold s2. destruct (idleId l) as [h|] eqn:Hid.
      - assert (forall h', idle s !! h' = Some i -> h' = h /\ 1 <= h) as Honly.
        { intros h' H. destruct (Hidle h' H) as (Hid' & _).
          split; [congruence |]. assert (h' = h) as <- by congruence.
          apply Hpos. eauto. }
        destruct (Nat.eqb_spec h 0) as [->|Hnz].
        + split; [|done]. intros h' H. destruct (Honly h' H). lia.
        + split; [|done]. intros h'. simpl.
          intros [Hne H]%lookup_delete_Some. destruct (Honly h' H). congruence.
      - split; [|done]. by destruct (Hnone eq_refl) as (_ & Hu & _). }
    clearbody s2.
    destruct (unobserve l) as [e|] eqn:Hun.
    - pose proof (callbacks_unobserveFn e (registry s2)) as Hdel.
      destruct (unobserveFn e (registry s2)) as [r|r]; simpl in Hdel;
        (split; [done |]); intros e'; simpl; rewrite Hdel, Hreg;
        intros [Hne H]%lookup_delete_Some; destruct (Hcbs e' H); congruence.
    - split; [done |]. intros e'. simpl. rewrite Hreg.
      intros H. destruct (Hcbs e' H). congruence. }
  split; [done |]. split; [done |].
  intros Hnever. by apply (run_silent i (hook_calls i s1) post s1).
Qed.


Lemma JsStr_eqb_eq (a b : JsStr) : JsStr_eqb a b = true <-> a = b.
Proof.
  destruct a as [| |x], b as [| |y]; simpl; try (split; [done | discriminate]);
    try done.
  rewrite String.eqb_eq. split; congruence.
Qed.

Lemma isSlowConnection_spec (cn : option Connection) :
  isSlowConnection cn = true <-> slow_connection cn.
Proof.
  unfold isSlowConnection, slow_connection. destruct cn as [c|].
  - rewrite orb_true_iff, includes_spec. split.
    + intros H. exists c. done.
    + intros (c' & [= <-] & H). done.
  - split; [done |]. by intros (c & ? & _).
Qed.

(** C6.  [isSlowConnection] answers true exactly when the
    network-information primitive exists and either its [saveData] flag
    is set or its [effectiveType] contains [2g]; without the primitive
    the connection is not slow.  [shouldPrefetch] holds exactly when
    [prefetch] is not [false], [noPrefetch] is not [true], [target] is
    not [_blank] and the connection is not slow.  A link set up and
    mounted is handed to [onNuxtReady] exactly when [shouldPrefetch]
    holds; when it does not, then whatever happens afterwards the link
    never calls the prefetch hook, is never registered with the
    observer, never has an idle callback pending and is never marked
    prefetched. *)
Theorem arms_iff_conditions_hold (props : Props.t) (cn : option Connection) :
  (isSlowConnection cn = true <-> slow_connection cn)
  /\ ~ slow_connection None
  /\ (shouldPrefetch props cn = true <->
      Props.prefetch props <> Some false
      /\ Props.noPrefetch props <> Some true
      /\ Props.target props <> Str "_blank"
      /\ ~ slow_connection cn)
  /\ (forall pre i ext,
        links (run pre init) !! i = None ->
        (i ∈ ready (run (pre ++ [Setup i props cn ext; Mount i]) init)
         <-> shouldPrefetch props cn = true)
        /\ (shouldPrefetch props cn = false ->
            forall post,
              let s := run (pre ++ Setup i props cn ext :: post) init in
              hook_calls i s = 0
              /\ unregistered i s /\ unscheduled i s /\ (i ∉ ready s)
              /\ forall l, links s !! i = Some l -> prefetched l = false)).
Proof.
  split; [apply isSlowConnection_spec |].
  split; [by intros (c & ? & _) |].
  split.
  - unfold shouldPrefetch. rewrite !andb_true_iff, !negb_true_iff.
    rewrite <- isSlowConnection_spec, <- (JsStr_eqb_eq (Props.target props)).
    destruct (Props.prefetch props) as [[|]|], (Props.noPrefetch props) as [[|]|],
      (JsStr_eqb (Props.target props) (Str "_blank")), (isSlowConnection cn);
      split; try done; try (intros (? & ? & ? & ?); done);
      try (intros [[[? ?] ?] ?]; done).
  - intros pre i ext Hfresh.
    pose proof (run_inert pre init inert_init i) as Hi.
    unfold inert_ok in Hi. rewrite Hfresh in Hi. destruct Hi as (Hr & _ & _).
    split.
    + rewrite run_app. simpl. rewrite Hfresh. simpl.
      rewrite lookup_insert_eq. simpl.
      destruct (shouldPrefetch props cn); simpl.
      * split; [done |]. intros _. apply elem_of_union. left.
        by apply elem_of_singleton.
      * split; [done | discriminate].
    + intros Hoff post s.
      assert (set_up i false (step (Setup i props cn ext) (run pre init))) as Hset.
      { simpl. rewrite Hfresh. eexists. split; [simpl; apply lookup_insert_eq |].
        done. }
      assert (s = run post (step (Setup i props cn ext) (run pre init))) as Hs
        by (unfold s; by rewrite run_app).
      pose proof (run_set_up i false post _ Hset) as (l & Hl & Hb).
      rewrite <- Hs in Hl.
      pose proof (run_inert (pre ++ Setup i props cn ext :: post) init inert_init i)
        as Hin.
      fold s in Hin. unfold inert_ok in Hin. rewrite Hl in Hin.
      destruct (Hin Hb) as (_ & _ & Hz & _ & Hp & Ha & Hu & Hg).
      unfold hook_calls. rewrite Hl.
      split; [done |]. split; [done |]. split; [done |]. split; [done |].
      intros l' [= <-]. done.
Qed.

End SchedulerFacts.

(** ** The results on sample data *)

Section Samples.

Import Observer Scheduler.

(** C4 at a link given neither [to] nor [href]. *)
Lemma classification_is_first_match_rule_witness :
  isExternal UfoModel.ufo Props.default (ToString EmptyString) = true
  /\ href UfoModel.ufo (Sample.options_with None Undefined) Sample.resolve "/"
          Props.default (ToString EmptyString) = None.
Proof.
  apply (classification_is_first_match_rule
           UfoModel.ufo (Sample.options_with None Undefined) Sample.resolve "/"
           Props.default (ToString EmptyString)).
  reflexivity.
Defined.

(** C7.  With the policy [append], the target [/a#b#c] becomes [/a/#b]:
    the path is normalised, but of the fragment [b#c] only [b] is
    appended again, so the result is not the normalised path followed by
    the fragment as it was. *)
Theorem text_after_second_hash_is_lost :
  applyTrailingSlashBehavior UfoModel.ufo "/a#b#c" Append = "/a/#b"
  /\ applyTrailingSlashBehavior UfoModel.ufo "/a#b#c" Append
     <> normalizeFn UfoModel.ufo Append "/a" true ++ "#" ++ "b#c".
Proof.
  assert (applyTrailingSlashBehavior UfoModel.ufo "/a#b#c" Append = "/a/#b") as Heq.
  { apply (second_hash_truncates UfoModel.ufo "/a" "b" "c" Append);
      [reflexivity | reflexivity | discriminate | reflexivity]. }
  split; [exact Heq |].
  rewrite Heq. discriminate.
Qed.

Example one_fragment_is_kept :
  applyTrailingSlashBehavior UfoModel.ufo "/a#b" Append = "/a/#b"
  /\ applyTrailingSlashBehavior UfoModel.ufo "/a/#b" Remove = "/a#b".
Proof. split; reflexivity. Qed.

Example schemes_pass_through :
  applyTrailingSlashBehavior UfoModel.ufo "mailto:a@b.c" Append = "mailto:a@b.c"
  /\ applyTrailingSlashBehavior UfoModel.ufo "tel:123" Append = "tel:123"
  /\ applyTrailingSlashBehavior UfoModel.ufo "tel:123/" Remove = "tel:123/".
Proof. repeat split; reflexivity. Qed.

(** C8 at the route [{ name: 'x', path: '/a' }] under [remove]. *)
Lemma named_route_loses_name_witness :
  resolveTrailingSlashBehavior
    UfoModel.ufo (Sample.options_with (Some Remove) Undefined) Sample.resolve
    (ToObject Sample.named_route)
  = ToObject {| name := None; path := Some "/a"; params := []; query := [];
                hash := None |}.
Proof.
  apply (named_route_loses_name
           UfoModel.ufo (Sample.options_with (Some Remove) Undefined)
           Sample.resolve Remove Sample.named_route).
  reflexivity.
Defined.

(** C9 fails as worded: with an empty [rel] prop and [nofollow]
    configured, the rule of the specification moves on to [nofollow],
    while the component renders no [rel] at all. *)
Lemma empty_rel_prop_ends_the_search :
  rel (Sample.options_with None (Str "nofollow"))
      (Sample.props_to "https://example.com" None (Str EmptyString))
      (Some "https://example.com") = None
  /\ rel_rule false (Str EmptyString) (Str "nofollow") (Some "https://example.com")
     = Some "nofollow".
Proof. split; reflexivity. Qed.

(** C9, as the code has it, at the same input. *)
Lemma rel_first_defined_decides_witness :
  rel (Sample.options_with None (Str "nofollow"))
      (Sample.props_to "https://example.com" None (Str EmptyString))
      (Some "https://example.com") = None.
Proof.
  pose proof (rel_first_defined_decides
                (Sample.options_with None (Str "nofollow"))
                (Sample.props_to "https://example.com" None (Str EmptyString))
                (Some "https://example.com")) as [_ H].
  destruct (H eq_refl) as [Hrel _].
  exact (Hrel EmptyString eq_refl).
Defined.

(** C10 at a custom link to [https://example.com] without a slot. *)
Lemma custom_external_without_slot_renders_null_witness :
  render UfoModel.ufo (Sample.options_with None Undefined) Sample.resolve "/"
         (Sample.props_to "https://example.com" (Some true) Undefined) None false
  = @RenderNull unit.
Proof.
  apply (custom_external_without_slot_renders_null
           UfoModel.ufo (Sample.options_with None Undefined) Sample.resolve "/"
           unit (Sample.props_to "https://example.com" (Some true) Undefined) false);
    reflexivity.
Defined.

(** C2 at one element observed and released: no watcher is left, and
    one was constructed and disconnected. *)
Lemma watcher_exists_iff_element_registered_witness :
  let st := Observer.run [Observe 7 tt; Unobserve 7] Observer.init in
  (is_Some (observer st) <-> callbacks st <> ∅)
  /\ constructed st
     = disconnected st + match observer st with Some _ => 1 | None => 0 end.
Proof.
  pose proof (watcher_exists_iff_element_registered
                unit [Observe 7 tt; Unobserve 7]) as (H1 & H2 & _).
  exact (conj H1 H2).
Defined.

(** C5.  After [observe] and one call of the function it returned, the
    watcher is gone, and the second call does not return: it throws on
    the [null] watcher. *)
Lemma second_unobserve_throws :
  let st := state_of (unobserveFn 7 (observe 7 tt Observer.init)) in
  observer st = None
  /\ unobserveFn 7 st = Threw st.
Proof. split; vm_compute; reflexivity. Qed.

(** With a second element keeping the watcher alive, the second call
    returns and changes nothing. *)
Lemma unobserve_again_needs_live_watcher_witness :
  let st := Observer.run [Observe 7 tt; Observe 8 tt; Unobserve 7] Observer.init in
  callbacks st !! 7 = None
  /\ unobserveFn 7 st = Returned st.
Proof.
  pose proof (unobserve_again_needs_live_watcher
                unit [Observe 7 tt; Observe 8 tt; Unobserve 7] 7) as H.
  split; [vm_compute; reflexivity |].
  apply H; [vm_compute; reflexivity |].
  eexists. vm_compute. reflexivity.
Defined.

(** C1 at a link whose element is reported visible three times. *)
Lemma visibility_prefetch_at_most_once_witness :
  forallb host_event Sample.seen_thrice = true
  /\ hook_calls 0 (Scheduler.run Sample.seen_thrice Scheduler.init) <= 1.
Proof.
  split; [reflexivity |].
  apply (visibility_prefetch_at_most_once Sample.seen_thrice 0).
  reflexivity.
Defined.

Example prefetch_happens_once :
  hook_calls 0 (Scheduler.run Sample.seen_thrice Scheduler.init) = 1.
Proof. vm_compute. reflexivity. Qed.

(** The bound is about what the host does: an idle callback run a second
    time by hand registers the element again, and the next report of it
    starts a second prefetch. *)
Example idle_callback_rerun_by_hand :
  hook_calls 0
    (Scheduler.run
       (Sample.seen_thrice ++ [IdleManual 0; Intersect [Sample.visible 7]])%list
       Scheduler.init) = 2.
Proof. vm_compute. reflexivity. Qed.

(** C6 at default props on a connection with [saveData] set: the link
    is not armed and the hook is never called, though the element is
    reported visible. *)
Lemma arms_iff_conditions_hold_witness :
  shouldPrefetch Props.default (Some Sample.saver) = false
  /\ hook_calls 0
       (Scheduler.run
          ([] ++ Setup 0 Props.default (Some Sample.saver) false
              :: [Render 0 (Some 7); Mount 0; NuxtReady 0; IdleFire 1;
                  Intersect [Sample.visible 7]])%list
          Scheduler.init) = 0.
Proof.
  split; [reflexivity |].
  pose proof (arms_iff_conditions_hold Props.default (Some Sample.saver))
    as (_ & _ & _ & H).
  destruct (H [] 0 false) as [_ Hinert]; [apply lookup_empty |].
  apply (Hinert eq_refl).
Defined.

Example default_link_arms :
  shouldPrefetch Props.default None = true
  /\ shouldPrefetch Sample.props_noPrefetch None = false
  /\ isSlowConnection (Some {| saveData := false; effectiveType := "slow-2g" |}) = true
  /\ isSlowConnection (Some {| saveData := false; effectiveType := "4g" |}) = false.
Proof. repeat split; reflexivity. Qed.

End Samples.

(** ** Further results *)

Section SharedFacts.
Import Observer.
Lemma callbacks_unobserveFn_any {CB : Type} e (r : Observer.t CB) :
  callbacks (state_of (unobserveFn e r)) = delete e (callbacks r).
Proof.
  unfold unobserveFn. destruct (observer r); [|done].
  by destruct (Nat.eqb _ _).
Qed.

Lemma deliver_nothing {CB S : Type} (registry : S -> Observer.t CB)
      (call : CB -> S -> S) (entries : list Entry) (s : S) :
  (forall entry, In entry entries ->
                 isVisible entry = false
                 \/ callbacks (registry s) !! entry_target entry = None) ->
  deliver registry call entries s = s.
Proof.
  unfold deliver. induction entries as [|entry entries IH]; intros Hall; [done |].
  simpl. destruct (Hall entry (or_introl eq_refl)) as [Hv|Hn].
  - rewrite Hv. destruct (callbacks (registry s) !! entry_target entry);
      apply IH; intros x Hx; apply Hall; by right.
  - rewrite Hn. apply IH. intros x Hx. apply Hall. by right.
Qed.
End SharedFacts.

Section MoreObserverFacts.

Import Observer.

Variable CB : Type.

(** X1.  Observing an element a second time replaces its callback and
    leaves nothing else behind: the registry is the one a single
    [observe] with the second callback gives, so the element's callback
    is the second one, no second watcher is constructed and the map
    does not grow. *)
Theorem reobserve_replaces_callback (e : Element) (cb1 cb2 : CB) (st : Observer.t CB) :
  observe e cb2 (observe e cb1 st) = observe e cb2 st
  /\ callbacks (observe e cb2 (observe e cb1 st)) !! e = Some cb2
  /\ size (callbacks (observe e cb2 (observe e cb1 st)))
     = size (callbacks (observe e cb1 st))
  /\ constructed (observe e cb2 (observe e cb1 st))
     = constructed (observe e cb1 st).
Proof.
  assert (observe e cb2 (observe e cb1 st) = observe e cb2 st) as Heq.
  { unfold observe. simpl. rewrite insert_insert_eq.
    destruct (observer st) as [io|]; simpl; f_equal; f_equal; f_equal;
      apply set_eq; intros x; rewrite !elem_of_union; tauto. }
  split; [exact Heq |]. split; [|split].
  - unfold observe. simpl. apply lookup_insert_eq.
  - unfold observe. simpl. rewrite insert_insert_eq.
    by rewrite !map_size_insert.
  - unfold observe. simpl. done.
Qed.

(** X2.  Observing an element that is not registered and calling the
    returned function at once is a round trip: the call returns, the
    callback map and the watcher reference are what they were.  With a
    watcher present the whole registry is unchanged; without one, a
    watcher was constructed and disconnected in between. *)
Theorem observe_then_unobserve_restores
        (ops : list (Op CB)) (e : Element) (cb : CB) :
  let st := Observer.run ops Observer.init in
  callbacks st !! e = None ->
  exists st',
    unobserveFn e (observe e cb st) = Returned st'
    /\ callbacks st' = callbacks st
    /\ observer st' = observer st
    /\ (is_Some (observer st) -> st' = st)
    /\ (observer st = None ->
        constructed st' = S (constructed st)
        /\ disconnected st' = S (disconnected st)).
Proof.
  intros st Hne.
  assert (consistent st) as (Hiff & Hio & Hcount)
    by apply consistent_run, consistent_init.
  clearbody st.
  unfold unobserveFn, observe. simpl. rewrite (delete_insert_id _ _ _ Hne).
  destruct (observer st) as [io|] eqn:Hobs; simpl.
  - destruct (Hio io eq_refl) as [Htargets _].
    destruct (Nat.eqb_spec (size (callbacks st)) 0) as [Hz|Hnz].
    + apply map_size_empty_iff in Hz. destruct Hiff as [_ Hiff].
      by specialize (Hiff Hz).
    + eexists. split; [done |]. simpl.
      assert ((({[e]} ∪ io_targets io) ∖ {[e]} : gset Element) = io_targets io)
        as Hset.
      { apply not_elem_of_dom in Hne. rewrite Htargets. apply set_eq. intros x.
        rewrite elem_of_difference, elem_of_union, !elem_of_singleton.
        split; [intros [[?|?] ?]; done |]. intros Hx.
        split; [by right |]. by intros ->. }
      rewrite Hset. destruct io as [id targets]. simpl.
      split; [done |]. split; [done |]. split; [|done].
      intros _. destruct st as [o c n d]. simpl in *. by subst o.
  - destruct Hiff as [Hiff _]. rewrite (Hiff eq_refl), map_size_empty. simpl.
    eexists. split; [done |]. simpl.
    split; [done |]. split; [done |]. split; [by intros [? ?] | done].
Qed.

(** X3.  The first call of the function returned for a registered
    element returns normally: it removes that element alone, so the map
    shrinks by one and every other element keeps its callback. *)
Theorem unobserve_registered_returns (ops : list (Op CB)) (e : Element) (cb : CB) :
  let st := Observer.run ops Observer.init in
  callbacks st !! e = Some cb ->
  exists st',
    unobserveFn e st = Returned st'
    /\ callbacks st' !! e = None
    /\ S (size (callbacks st')) = size (callbacks st)
    /\ (forall e', e' <> e -> callbacks st' !! e' = callbacks st !! e').
Proof.
  intros st He.
  assert (consistent st) as (Hiff & Hio & Hcount)
    by apply consistent_run, consistent_init.
  clearbody st.
  pose proof (callbacks_unobserveFn_any e st) as Hdel.
  assert (exists st', unobserveFn e st = Returned st') as [st' Hst'].
  { unfold unobserveFn. destruct (observer st) as [io|] eqn:Hobs.
    - destruct (Nat.eqb _ _); eauto.
    - destruct Hiff as [Hiff _]. rewrite (Hiff eq_refl) in He.
      by rewrite lookup_empty in He. }
  rewrite Hst' in Hdel. simpl in Hdel. exists st'.
  split; [done |]. rewrite Hdel. split; [apply lookup_delete_eq |]. split.
  - rewrite map_size_delete, He. simpl.
    assert (size (callbacks st) <> 0) as Hnz.
    { intros Hz%map_size_empty_iff. rewrite Hz in He.
      by rewrite lookup_empty in He. }
    lia.
  - intros e' Hne'. by apply lookup_delete_ne.
Qed.

(** X4.  The watcher's callback calls nothing when no entry is both
    visible and for a registered element: the state is left as it
    was. *)
Theorem deliver_without_visible_registered_entry
        (S : Type) (registry : S -> Observer.t CB) (call : CB -> S -> S)
        (entries : list Entry) (s : S) :
  (forall entry, In entry entries ->
                 isVisible entry = false
                 \/ callbacks (registry s) !! entry_target entry = None) ->
  deliver registry call entries s = s.
Proof. apply deliver_nothing. Qed.

End MoreObserverFacts.

Section MoreResolverFacts.

Variable ufo : Ufo.
Variable options : NuxtLinkOptions.
Variable router_resolve : RouteLocationRaw -> RouteLocation.
Variable baseURL : string.

Lemma or_null_not_empty (v : JsStr) : or_null v <> Some EmptyString.
Proof. destruct v as [| |[|c s]]; simpl; congruence. Qed.

(** X5.  A link with a [target] other than [_self] that is not in
    custom mode always renders a plain anchor carrying that target,
    whatever it points to; and unless [noRel], a [rel] prop or a
    configured [externalRelAttribute] says otherwise, an anchor with a
    non-empty [href] gets [rel="noopener noreferrer"]. *)
Theorem new_context_link_is_guarded_anchor
        (V : Type) (props : Props.t) (slots_default : option (Slot V))
        (prefetched : bool) (t : string) :
  Props.target props = Str t ->
  t <> EmptyString -> t <> "_self" ->
  truthy_bool (Props.custom props) = false ->
  let h := href ufo options router_resolve baseURL props
                (to_value ufo options router_resolve props) in
  render ufo options router_resolve baseURL props slots_default prefetched
  = HAnchor h (rel options props h) (Some t)
            (match slots_default with
             | Some slot => Some (slot None)
             | None => None
             end)
  /\ (truthy_bool (Props.noRel props) = false ->
      Props.rel props = Undefined ->
      externalRelAttribute options = Undefined ->
      forall x, h = Some x -> x <> EmptyString ->
                rel options props h = Some "noopener noreferrer").
Proof.
  intros Ht Hne Hself Hcustom h.
  assert (isExternal ufo props (to_value ufo options router_resolve props) = true)
    as Hext.
  { unfold isExternal. rewrite Ht.
    destruct (truthy_bool (Props.external props)); [done |].
    assert (truthy (Str t) && negb (JsStr_eqb (Str t) (Str "_self")) = true) as ->;
      [|done].
    unfold truthy, JsStr_eqb. apply andb_true_iff. split.
    - by destruct t.
    - apply negb_true_iff. by apply String.eqb_neq. }
  split.
  - unfold render. rewrite Hext, Hcustom. simpl. fold h. rewrite Ht.
    destruct t; [done | done].
  - intros HnoRel Hrel Hconf x Hx Hxne. unfold rel.
    rewrite HnoRel, Hrel, Hconf, Hx. simpl. by destruct x.
Qed.

(** X6.  The [href] of an external link to a non-empty string: a
    string with a scheme (or protocol-relative), and any string under
    an explicit [external], is emitted as it is; a scheme-less string
    that is external only through its [target] is joined to the
    application's base URL, and the trailing-slash policy is applied to
    the result. *)
Theorem external_href_joins_base_only_for_paths (props : Props.t) (s : string) :
  s <> EmptyString ->
  let h := href ufo options router_resolve baseURL props (ToString s) in
  ((truthy_bool (Props.external props) = true \/ hasProtocol ufo s true = true) ->
   h = Some s)
  /\ (truthy_bool (Props.external props) = false ->
      hasProtocol ufo s true = false ->
      (trailingSlash options = None -> h = Some (joinURL ufo baseURL s))
      /\ (forall ts, trailingSlash options = Some ts ->
                     joinURL ufo baseURL s <> EmptyString ->
                     h = Some (applyTrailingSlashBehavior
                                 ufo (joinURL ufo baseURL s) ts))).
Proof.
  intros Hne h. unfold h, href, isProtocolURL.
  destruct s as [|c s]; [done |]. simpl. split.
  - intros [-> | ->]; simpl; [done |]. by rewrite andb_false_r.
  - intros -> ->. simpl. unfold resolveTrailingSlashBehavior. split.
    + intros ->. by destruct (falsy_to _).
    + intros ts -> Hj. destruct (joinURL ufo baseURL (String c s)); done.
Qed.

(** X7.  No attribute is rendered empty: [rel] is never the empty
    string, and an anchor carries neither an empty [rel] nor an empty
    [target]; its [target], when present, is the [target] prop. *)
Theorem anchor_attributes_are_never_empty
        (V : Type) (props : Props.t) (slots_default : option (Slot V))
        (prefetched : bool) :
  (forall h, rel options props h <> Some EmptyString)
  /\ (forall h r t c,
        render ufo options router_resolve baseURL props slots_default prefetched
        = HAnchor h r t c ->
        r <> Some EmptyString /\ t <> Some EmptyString
        /\ (forall x, t = Some x -> Props.target props = Str x)).
Proof.
  assert (forall h, rel options props h <> Some EmptyString) as Hrel.
  { intros h. unfold rel. destruct (truthy_bool (Props.noRel props)); [done |].
    apply or_null_not_empty. }
  split; [exact Hrel |].
  intros h r t c. unfold render.
  destruct (negb (isExternal ufo props _)); [done |].
  destruct (truthy_bool (Props.custom props)).
  - by destruct slots_default.
  - intros [= <- <- <- <-]. split; [apply Hrel |].
    split; [apply or_null_not_empty |].
    intros x. destruct (Props.target props) as [| |[|a b]]; simpl; congruence.
Qed.

(** X17.  [firstNonUndefined] answers the first argument that is not
    [undefined], everything before it being [undefined]; it answers
    [undefined] exactly when every argument is. *)
Theorem firstNonUndefined_is_first (args : list JsStr) :
  (firstNonUndefined args = Undefined <-> Forall (fun v => v = Undefined) args)
  /\ (firstNonUndefined args <> Undefined ->
      exists before after,
        args = (before ++ firstNonUndefined args :: after)%list
        /\ Forall (fun v => v = Undefined) before).
Proof.
  unfold firstNonUndefined. induction args as [|v args [IH1 IH2]]; simpl.
  - split; [split; [constructor | done] | done].
  - destruct v as [| |x]; simpl.
    + split.
      * rewrite IH1. split; [by constructor |]. by inversion 1.
      * intros Hne. destruct (IH2 Hne) as (before & after & Heq & Hall).
        exists (Undefined :: before), after. split; [|by constructor].
        simpl. by rewrite <- Heq.
    + split; [split; [done | by inversion 1] |].
      intros _. by exists [], args.
    + split; [split; [done | by inversion 1] |].
      intros _. by exists [], args.
Qed.

End MoreResolverFacts.

Section MoreSchedulerFacts.

Import Observer Scheduler Runs.

Implicit Types (s : State) (i j : LinkId) (l : Link) (e : Element) (h : nat).

(** *** How the callbacks change a link *)

Lemma visibleCallback_link i j s :
  links (visibleCallback j s) !! i = links s !! i
  \/ (j = i /\ exists l, links s !! i = Some l
                         /\ links (visibleCallback j s) !! i = Some (started l)).
Proof.
  unfold visibleCallback. destruct (links s !! j) as [l|] eqn:Hl; [|by left].
  destruct (match unobserve l with
            | Some e => unobserveFn e (registry s)
            | None => Returned (registry s)
            end); [|by left].
  simpl. destruct (decide (j = i)) as [->|Hne].
  - right. split; [done |]. exists l. split; [done |]. apply lookup_insert_eq.
  - left. by apply lookup_insert_ne.
Qed.

Lemma idleCallback_link i j s :
  links (idleCallback j s) !! i = links s !! i
  \/ (j = i /\ exists l e, links s !! i = Some l /\ el l = Some e
                           /\ links (idleCallback j s) !! i
                              = Some (with_unobserve (Some e) l)).
Proof.
  unfold idleCallback. destruct (links s !! j) as [l|] eqn:Hl; [|by left].
  destruct (el l) as [e|] eqn:He; [|by left].
  simpl. destruct (decide (j = i)) as [->|Hne].
  - right. split; [done |]. exists l, e. split; [done |]. split; [done |].
    apply lookup_insert_eq.
  - left. by apply lookup_insert_ne.
Qed.

Lemma onBeforeUnmount_link i j s :
  links (onBeforeUnmount j s) !! i = links s !! i
  \/ (j = i /\ exists l, links s !! i = Some l
                         /\ links (onBeforeUnmount j s) !! i
                            = Some (with_unobserve None l)).
Proof.
  unfold onBeforeUnmount. destruct (links s !! j) as [l|] eqn:Hl; [|by left].
  set (s1 := match idleId l with
             | Some h => if Nat.eqb h 0 then _ else _
             | None => _
             end).
  assert (links s1 = links s) as Hlinks.
  { unfold s1. destruct (idleId l) as [h|]; [|done]. by destruct (Nat.eqb h 0). }
  clearbody s1.
  assert (links (set_link j (with_unobserve None l) s1) !! i = links s !! i
          \/ (j = i /\ exists l0, links s !! i = Some l0
                /\ links (set_link j (with_unobserve None l) s1) !! i
                   = Some (with_unobserve None l0))) as Hset.
  { simpl. rewrite Hlinks. destruct (decide (j = i)) as [->|Hne].
    - right. split; [done |]. exists l. split; [done |]. apply lookup_insert_eq.
    - left. by apply lookup_insert_ne. }
  destruct (unobserve l) as [e|]; [|done].
  destruct (unobserveFn e (registry s1)) as [r|r]; [done |].
  left. simpl. by rewrite Hlinks.
Qed.

(** A property of the record of link [i] is kept by an event when it
    is kept by each change the event can make to that record. *)
Lemma step_link_inv (Q : Link -> Prop) i ev s :
  (forall props cn ext, ev = Setup i props cn ext -> Q (setup props cn ext)) ->
  (forall v l, ev = Render i v -> Q l -> Q (with_el v l)) ->
  (forall l, ev = Mount i -> Q l -> Q (with_phase Mounted l)) ->
  (forall l h, ev = NuxtReady i -> Q l -> Q (with_idleId (Some h) l)) ->
  (forall l e, (ev = IdleManual i \/ exists h, ev = IdleFire h) ->
               Q l -> el l = Some e -> Q (with_unobserve (Some e) l)) ->
  (forall l entries, ev = Intersect entries -> Q l -> Q (started l)) ->
  (forall l n, ev = Settle i -> Q l -> inflight l = S n -> Q (settled n l)) ->
  (forall l, ev = Unmount i -> Q l ->
             Q (with_phase Unmounted l)
             /\ Q (with_unobserve None (with_phase Unmounted l))) ->
  (forall l, links s !! i = Some l -> Q l) ->
  forall l', links (step ev s) !! i = Some l' -> Q l'.
Proof.
  intros Hsetup Hrender Hmount Hready Hidle Hstart Hsettle Hunmount Hs.
  destruct ev as [j props cn ext|j node|j|j|h|j|entries|j|j]; simpl.
  - destruct (links s !! j) as [l|] eqn:Hl; [done |]. simpl. intros l'.
    destruct (decide (j = i)) as [->|Hne].
    + rewrite lookup_insert_eq. intros [= <-]. by apply Hsetup.
    + rewrite lookup_insert_ne by done. apply Hs.
  - destruct (links s !! j) as [l|] eqn:Hl; [|done]. simpl. intros l'.
    destruct (decide (j = i)) as [->|Hne].
    + rewrite lookup_insert_eq. intros [= <-]. apply Hrender; [done |]. by apply Hs.
    + rewrite lookup_insert_ne by done. apply Hs.
  - destruct (links s !! j) as [l|] eqn:Hl; [|done].
    destruct (phase l); try done.
    assert (forall l', links (set_link j (with_phase Mounted l) s) !! i = Some l'
                       -> Q l') as Hgoal.
    { simpl. intros l'. destruct (decide (j = i)) as [->|Hne].
      - rewrite lookup_insert_eq. intros [= <-]. apply Hmount; [done |]. by apply Hs.
      - rewrite lookup_insert_ne by done. apply Hs. }
    by destruct (shouldPrefetch_ l).
  - destruct (decide (j ∈ ready s)); [|done].
    unfold readyCallback. simpl. destruct (links s !! j) as [l|] eqn:Hl; [|done].
    simpl. intros l'. destruct (decide (j = i)) as [->|Hne].
    + rewrite lookup_insert_eq. intros [= <-]. apply Hready; [done |]. by apply Hs.
    + rewrite lookup_insert_ne by done. apply Hs.
  - destruct (idle s !! h) as [j|]; [|done]. intros l'.
    destruct (idleCallback_link i j (cancelIdleCallback h s))
      as [->|(-> & l & e & Hl & He & ->)]; [apply Hs |].
    intros [= <-]. apply (Hidle l e); [eauto | by apply Hs | done].
  - destruct (links s !! j) as [l0|] eqn:Hl0; [|done].
    destruct (idleId l0); [|done]. intros l'.
    destruct (idleCallback_link i j s) as [->|(-> & l & e & Hl & He & ->)];
      [apply Hs |].
    intros [= <-]. apply (Hidle l e); [eauto | by apply Hs | done].
  - apply (deliver_preserves (fun s => forall l, links s !! i = Some l -> Q l));
      [|done].
    intros j t s' _ Hs' l'.
    destruct (visibleCallback_link i j s') as [->|(-> & l & Hl & ->)];
      [apply Hs' |].
    intros [= <-]. apply (Hstart l entries); [done |]. by apply Hs'.
  - unfold settle. destruct (links s !! j) as [l|] eqn:Hl; [|done].
    destruct (inflight l) as [|n] eqn:Hn; [done |]. simpl. intros l'.
    destruct (decide (j = i)) as [->|Hne].
    + rewrite lookup_insert_eq. intros [= <-].
      apply (Hsettle l n); [done | by apply Hs | done].
    + rewrite lookup_insert_ne by done. apply Hs.
  - destruct (links s !! j) as [l|] eqn:Hl; [|done].
    destruct (phase l); try done.
    set (s' := set_link j (with_phase Unmounted l) s).
    destruct (decide (j = i)) as [->|Hne].
    + destruct (Hunmount l eq_refl (Hs l Hl)) as [Hq1 Hq2].
      assert (links s' !! i = Some (with_phase Unmounted l)) as Hl'
        by apply lookup_insert_eq.
      destruct (shouldPrefetch_ l); [|intros l'; rewrite Hl'; by intros [= <-]].
      intros l'.
      destruct (onBeforeUnmount_link i i s') as [->|(_ & l0 & Hl0 & ->)].
      * rewrite Hl'. by intros [= <-].
      * rewrite Hl' in Hl0. injection Hl0 as <-. by intros [= <-].
    + assert (links s' !! i = links s !! i) as Hl' by (by apply lookup_insert_ne).
      destruct (shouldPrefetch_ l); [|intros l'; rewrite Hl'; apply Hs].
      intros l'.
      destruct (onBeforeUnmount_link i j s') as [->|(-> & _)]; [|done].
      rewrite Hl'. apply Hs.
Qed.




(** *** The registry under the scheduler *)

Lemma visibleCallback_registry j s :
  registry (visibleCallback j s) = registry s
  \/ exists e, registry (visibleCallback j s)
               = state_of (unobserveFn e (registry s)).
Proof.
  unfold visibleCallback. destruct (links s !! j) as [l|]; [|by left].
  destruct (unobserve l) as [e|]; [|by left].
  right. exists e. by destruct (unobserveFn e (registry s)).
Qed.

Lemma idleCallback_registry j s :
  registry (idleCallback j s) = registry s
  \/ exists e, registry (idleCallback j s) = observe e j (registry s).
Proof.
  unfold idleCallback. destruct (links s !! j) as [l|]; [|by left].
  destruct (el l) as [e|]; [|by left]. right. by exists e.
Qed.

Lemma onBeforeUnmount_registry j s :
  registry (onBeforeUnmount j s) = registry s
  \/ exists e, registry (onBeforeUnmount j s)
               = state_of (unobserveFn e (registry s)).
Proof.
  unfold onBeforeUnmount. destruct (links s !! j) as [l|]; [|by left].
  set (s1 := match idleId l with
             | Some h => if Nat.eqb h 0 then _ else _
             | None => _
             end).
  assert (registry s1 = registry s) as Hreg.
  { unfold s1. destruct (idleId l) as [h|]; [|done]. by destruct (Nat.eqb h 0). }
  clearbody s1.
  destruct (unobserve l) as [e|]; [|by left].
  right. exists e. rewrite <- Hreg. by destruct (unobserveFn e (registry s1)).
Qed.

Lemma step_consistent ev s :
  consistent (registry s) -> consistent (registry (step ev s)).
Proof.
  intros Hs.
  destruct ev as [j props cn ext|j node|j|j|h|j|entries|j|j]; simpl.
  - by destruct (links s !! j).
  - by destruct (links s !! j).
  - destruct (links s !! j) as [l|]; [|done].
    destruct (phase l); try done. by destruct (shouldPrefetch_ l).
  - destruct (decide (j ∈ ready s)); [|done].
    unfold readyCallback. simpl. by destruct (links s !! j).
  - destruct (idle s !! h) as [j|]; [|done].
    destruct (idleCallback_registry j (cancelIdleCallback h s)) as [->|[e ->]];
      [done |]. by apply consistent_observe.
  - destruct (links s !! j) as [l|]; [|done]. destruct (idleId l); [|done].
    destruct (idleCallback_registry j s) as [->|[e ->]]; [done |].
    by apply consistent_observe.
  - apply (deliver_preserves (fun s => consistent (registry s))); [|done].
    intros j t s' _ Hs'.
    destruct (visibleCallback_registry j s') as [->|[e ->]]; [done |].
    by apply consistent_unobserve.
  - unfold settle. destruct (links s !! j) as [l|]; [|done].
    by destruct (inflight l).
  - destruct (links s !! j) as [l|]; [|done].
    destruct (phase l); try done.
    destruct (shouldPrefetch_ l); [|done].
    destruct (onBeforeUnmount_registry j (set_link j (with_phase Unmounted l) s))
      as [->|[e ->]]; [done |].
    by apply consistent_unobserve.
Qed.

Lemma run_consistent tr s :
  consistent (registry s) -> consistent (registry (run tr s)).
Proof.
  revert s. induction tr as [|ev tr IH]; intros s Hs; [done |].
  simpl. apply IH. by apply step_consistent.
Qed.

(** X9.  However the links of a page use the shared observer, in any
    run the watcher exists exactly when some link is registered, it
    watches exactly the registered elements, and it is the only native
    observer alive: when no link waits for visibility, none is. *)
Theorem page_keeps_watcher_in_step (tr : list Event) :
  let r := registry (run tr init) in
  (observer r = None <-> callbacks r = ∅)
  /\ (forall io, observer r = Some io -> io_targets io = dom (callbacks r))
  /\ constructed r
     = disconnected r + match observer r with Some _ => 1 | None => 0 end.
Proof.
  intros r.
  assert (consistent r) as (Hiff & Hio & Hcount)
    by (apply run_consistent, consistent_init).
  split; [done |]. split; [|done].
  intros io Hobs. by destruct (Hio io Hobs).
Qed.


(** *** What a host run guarantees about a registered link *)

(** X10.  In a run of host events, a link registered with the observer
    is armed and past its idle callback, which is no longer pending; it
    holds the release function of exactly the element it is registered
    under, so it is registered under one element only; and its prefetch
    has not started. *)
Theorem registered_link_holds_its_handle
        (tr : list Event) (i : LinkId) (e : Element) :
  forallb host_event tr = true ->
  let s := run tr init in
  callbacks (registry s) !! e = Some i ->
  (exists l, links s !! i = Some l
             /\ shouldPrefetch_ l = true
             /\ unobserve l = Some e
             /\ idleId l <> None
             /\ phase l <> Created
             /\ hookCalls l = 0)
  /\ unscheduled i s
  /\ (forall e', callbacks (registry s) !! e' = Some i -> e' = e).
Proof.
  intros Hhost s He.
  assert (scheduled_ok s) as [_ Hinv] by (by apply run_ok, scheduled_ok_init).
  destruct (link_exists i s (Hinv i)) as (l & Hl); [eauto |].
  pose proof (Hinv i) as Hi. unfold link_ok in Hi. rewrite Hl in Hi.
  destruct Hi as (Hle & Hnone & Hready & Hcreated & Hidle & Hcbs).
  destruct (Hcbs e He) as [Hun Hzero].
  assert (idleId l <> None) as Hid.
  { intros Hid. destruct (Hnone Hid) as (_ & _ & Hg). by destruct (Hg e). }
  split; [|split].
  - exists l. split; [done |]. split.
    + apply (inert_armed i l s); [apply run_inert, inert_init | done | eauto 10].
    + split; [done |]. split; [done |]. split; [|done].
      intros Hph. by apply Hid, Hcreated.
  - intros h Hh. destruct (Hidle h Hh) as (_ & _ & Hg). by destruct (Hg e).
  - intros e' He'. destruct (Hcbs e' He'). congruence.
Qed.

(** X11.  In a run of host events, a link whose prefetch has started
    holds nothing any more: it is not registered with the observer, has
    no idle callback pending and no ready callback waiting. *)
Theorem started_prefetch_holds_nothing (tr : list Event) (i : LinkId) (l : Link) :
  forallb host_event tr = true ->
  let s := run tr init in
  links s !! i = Some l ->
  1 <= hookCalls l ->
  hookCalls l = 1
  /\ unregistered i s /\ unscheduled i s /\ (i ∉ ready s).
Proof.
  intros Hhost s Hl Hstarted.
  assert (scheduled_ok s) as [_ Hinv] by (by apply run_ok, scheduled_ok_init).
  pose proof (Hinv i) as Hi. unfold link_ok in Hi. rewrite Hl in Hi.
  destruct Hi as (Hle & Hnone & Hready & Hcreated & Hidle & Hcbs).
  split; [lia |]. split; [|split].
  - intros e He. destruct (Hcbs e He). lia.
  - intros h Hh. destruct (Hidle h Hh) as (_ & Hz & _). lia.
  - intros Hin. destruct (Hready Hin) as [Hid _].
    destruct (Hnone Hid) as (Hz & _). lia.
Qed.

(** X12.  In a run of host events, a visible report of a registered
    element does start the prefetch of the link registered under it:
    the release function returns, the hook is called (once in all), the
    link is no longer registered, and when the promises settle the link
    is marked prefetched. *)
Theorem visible_report_starts_prefetch
        (tr : list Event) (i : LinkId) (entry : Entry) :
  forallb host_event tr = true ->
  let s := run tr init in
  callbacks (registry s) !! entry_target entry = Some i ->
  isVisible entry = true ->
  let s' := step (Intersect [entry]) s in
  hook_calls i s = 0
  /\ hook_calls i s' = 1
  /\ unregistered i s'
  /\ (exists l, links s' !! i = Some l /\ unobserve l = None)
  /\ (exists l, links (step (Settle i) s') !! i = Some l
                /\ prefetched l = true).
Proof.
  intros Hhost s He Hvis s'.
  assert (scheduled_ok s) as [_ Hinv] by (by apply run_ok, scheduled_ok_init).
  assert (consistent (registry s)) as (Hiff & _ & _)
    by (apply run_consistent, consistent_init).
  destruct (link_exists i s (Hinv i)) as (l & Hl); [eauto |].
  pose proof (Hinv i) as Hi. unfold link_ok in Hi. rewrite Hl in Hi.
  destruct Hi as (_ & _ & _ & _ & _ & Hcbs).
  destruct (Hcbs _ He) as [Hun Hzero].
  assert (exists r, unobserveFn (entry_target entry) (registry s) = Returned r
                    /\ callbacks r = delete (entry_target entry)
                                            (callbacks (registry s)))
    as (r & Hr & Hdel).
  { pose proof (callbacks_unobserveFn (entry_target entry) (registry s)) as Hd.
    unfold unobserveFn in *.
    destruct (observer (registry s)) as [io|] eqn:Hobs.
    - destruct (Nat.eqb _ _); eauto.
    - destruct Hiff as [Hiff _]. rewrite (Hiff eq_refl) in He.
      by rewrite lookup_empty in He. }
  assert (s' = set_link i (started l) (set_registry r s)) as Hs'.
  { unfold s'. simpl. unfold deliver. simpl. rewrite He, Hvis.
    unfold visibleCallback. by rewrite Hl, Hun, Hr. }
  split; [unfold hook_calls; by rewrite Hl |].
  rewrite Hs'. unfold hook_calls, unregistered, settle. simpl.
  rewrite !lookup_insert_eq. simpl. rewrite Hzero, Hdel.
  split; [done |]. split.
  - intros e' [Hne H]%lookup_delete_Some. destruct (Hcbs e' H). congruence.
  - split; [eauto |]. unfold settle. simpl. rewrite lookup_insert_eq. simpl.
    eexists. rewrite lookup_insert_eq. eauto.
Qed.


(** *** Runs in which something never happens *)

Lemma step_no_visible_entry (i : LinkId) ev s :
  no_visible_entry [ev] = true ->
  (forall l, links s !! i = Some l ->
             hookCalls l = 0 /\ inflight l = 0 /\ prefetched l = false
             /\ preloads l = 0) ->
  forall l', links (step ev s) !! i = Some l' ->
             hookCalls l' = 0 /\ inflight l' = 0 /\ prefetched l' = false
             /\ preloads l' = 0.
Proof.
  intros Hev Hs.
  destruct ev as [j props cn ext|j node|j|j|h|j|entries|j|j].
  7: { simpl in Hev. rewrite andb_true_r in Hev.
       simpl. rewrite deliver_nothing; [done |].
       intros entry Hin. left. rewrite forallb_forall in Hev.
       by apply negb_true_iff, Hev. }
  all: apply (step_link_inv
                (fun l => hookCalls l = 0 /\ inflight l = 0
                          /\ prefetched l = false /\ preloads l = 0) i _ s);
    try done; try (intros; discriminate).
  all: try (intros l n _ (_ & Hin & _) Hn; congruence).
Qed.

(** X13.  Without a visible report from the watcher nothing is ever
    prefetched: in any run whose watcher deliveries contain no visible
    entry, no link calls the prefetch hook or the preload, and none is
    marked prefetched. *)
Theorem no_prefetch_without_visibility (tr : list Event) (i : LinkId) :
  no_visible_entry tr = true ->
  hook_calls i (run tr init) = 0
  /\ (forall l, links (run tr init) !! i = Some l ->
                prefetched l = false /\ preloads l = 0).
Proof.
  intros Htr.
  assert (forall l, links (run tr init) !! i = Some l ->
                    hookCalls l = 0 /\ inflight l = 0 /\ prefetched l = false
                    /\ preloads l = 0) as Hall.
  { assert (forall l, links init !! i = Some l ->
                      hookCalls l = 0 /\ inflight l = 0 /\ prefetched l = false
                      /\ preloads l = 0) as Hinit
      by (intros l; simpl; by rewrite lookup_empty).
    revert Htr Hinit. generalize init.
    induction tr as [|ev tr IH]; intros s Htr Hs; [done |].
    simpl in Htr. apply andb_true_iff in Htr as [Hev Htr].
    simpl. apply IH; [done |].
    apply step_no_visible_entry; [|done]. simpl. by rewrite Hev. }
  split.
  - unfold hook_calls. destruct (links (run tr init) !! i) as [l|] eqn:Hl; [|done].
    by destruct (Hall l eq_refl).
  - intros l Hl. by destruct (Hall l Hl) as (_ & _ & ? & ?).
Qed.

Lemma step_never_rendered i ev s :
  never_rendered i [ev] = true ->
  (silent i 0 s /\ forall l, links s !! i = Some l -> el l = None) ->
  silent i 0 (step ev s) /\ forall l, links (step ev s) !! i = Some l -> el l = None.
Proof.
  intros Hev [Hsilent Hel]. split.
  - apply step_silent; [|done]. unfold arms_observation.
    destruct (links s !! i) as [l|] eqn:Hl; [|done]. by rewrite (Hel l eq_refl).
  - apply (step_link_inv (fun l => el l = None) i ev s); try done;
      try (intros; congruence).
    intros v l -> _. simpl in Hev. destruct v as [e|]; [|done].
    by rewrite Nat.eqb_refl in Hev.
Qed.

(** X14.  A link whose element reference never receives an element is
    never registered with the observer and never prefetches, whatever
    else happens, idle callbacks invoked by hand included. *)
Theorem no_prefetch_without_element (tr : list Event) (i : LinkId) :
  never_rendered i tr = true ->
  hook_calls i (run tr init) = 0
  /\ unregistered i (run tr init).
Proof.
  intros Htr.
  assert (silent i 0 (run tr init)
          /\ forall l, links (run tr init) !! i = Some l -> el l = None) as [[? ?] _].
  { assert (silent i 0 init /\ forall l, links init !! i = Some l -> el l = None)
      as Hinit.
    { split; [split |].
      - intros e. simpl. by rewrite lookup_empty.
      - unfold hook_calls. simpl. by rewrite lookup_empty.
      - intros l. simpl. by rewrite lookup_empty. }
    revert Htr Hinit. generalize init.
    induction tr as [|ev tr IH]; intros s Htr Hs; [done |].
    simpl in Htr. apply andb_true_iff in Htr as [Hev Htr].
    simpl. apply IH; [done |].
    apply step_never_rendered; [|done]. simpl. by rewrite Hev. }
  done.
Qed.

Lemma step_before_ready ev s :
  before_ready [ev] = true -> untouched s -> untouched (step ev s).
Proof.
  intros Hev (Hreg & Hidle & Hlinks).
  assert (forall i l', links (step ev s) !! i = Some l' ->
                       idleId l' = None /\ unobserve l' = None
                       /\ hookCalls l' = 0 /\ inflight l' = 0) as Hlinks'.
  { intros i.
    destruct ev as [j props cn ext|j node|j|j|h|j|entries|j|j]; try discriminate.
    4: { simpl. rewrite Hidle, lookup_empty. apply Hlinks. }
    4: { simpl. destruct (links s !! j) as [l|] eqn:Hl; [|apply Hlinks].
         destruct (Hlinks j l Hl) as (-> & _). apply Hlinks. }
    4: { simpl. rewrite deliver_nothing; [apply Hlinks |].
         intros entry _. right. rewrite Hreg. simpl. apply lookup_empty. }
    all: apply (step_link_inv
                  (fun l => idleId l = None /\ unobserve l = None
                            /\ hookCalls l = 0 /\ inflight l = 0) i _ s);
      try done; try (intros; discriminate); try apply Hlinks.
    all: try (intros l e [?|[h ?]]; discriminate).
    all: try (intros l n _ (_ & _ & _ & Hin) Hn; congruence).
    all: try (intros l _ (? & ? & ? & ?); done). }
  split; [|split; [|done]].
  - destruct ev as [j props cn ext|j node|j|j|h|j|entries|j|j]; try discriminate;
      simpl.
    + by destruct (links s !! j).
    + by destruct (links s !! j).
    + destruct (links s !! j) as [l|]; [|done].
      destruct (phase l); try done. by destruct (shouldPrefetch_ l).
    + by rewrite Hidle, lookup_empty.
    + destruct (links s !! j) as [l|] eqn:Hl; [|done].
      by destruct (Hlinks j l Hl) as (-> & _).
    + rewrite deliver_nothing; [done |].
      intros entry _. right. rewrite Hreg. simpl. apply lookup_empty.
    + unfold settle. destruct (links s !! j) as [l|]; [|done].
      by destruct (inflight l).
    + destruct (links s !! j) as [l|] eqn:Hl; [|done].
      destruct (phase l); try done.
      destruct (shouldPrefetch_ l); [|done].
      unfold onBeforeUnmount. simpl. rewrite lookup_insert_eq. simpl.
      destruct (Hlinks j l Hl) as (-> & -> & _). done.
  - destruct ev as [j props cn ext|j node|j|j|h|j|entries|j|j]; try discriminate;
      simpl.
    + by destruct (links s !! j).
    + by destruct (links s !! j).
    + destruct (links s !! j) as [l|]; [|done].
      destruct (phase l); try done. by destruct (shouldPrefetch_ l).
    + by rewrite Hidle, lookup_empty.
    + destruct (links s !! j) as [l|] eqn:Hl; [|done].
      by destruct (Hlinks j l Hl) as (-> & _).
    + rewrite deliver_nothing; [done |].
      intros entry _. right. rewrite Hreg. simpl. apply lookup_empty.
    + unfold settle. destruct (links s !! j) as [l|]; [|done].
      by destruct (inflight l).
    + destruct (links s !! j) as [l|] eqn:Hl; [|done].
      destruct (phase l); try done.
      destruct (shouldPrefetch_ l); [|done].
      unfold onBeforeUnmount. simpl. rewrite lookup_insert_eq. simpl.
      destruct (Hlinks j l Hl) as (-> & -> & _). done.
Qed.

(** X15.  Until the application is ready nothing is set in motion:
    whatever is set up, rendered, mounted, reported visible or unmounted
    before any ready callback runs, no idle callback is requested, the
    shared observer is not touched and no native watcher is
    constructed, and no link prefetches. *)
Theorem nothing_before_ready (tr : list Event) :
  before_ready tr = true ->
  let s := run tr init in
  idle s = ∅
  /\ registry s = Observer.init
  /\ constructed (registry s) = 0
  /\ forall i, hook_calls i s = 0.
Proof.
  intros Htr s.
  assert (untouched s) as (Hreg & Hidle & Hlinks).
  { assert (untouched init) as Hinit.
    { split; [done |]. split; [done |]. intros i l. simpl.
      by rewrite lookup_empty. }
    unfold s. revert Htr Hinit. generalize init.
    induction tr as [|ev tr IH]; intros s0 Htr Hs; [done |].
    simpl in Htr. apply andb_true_iff in Htr as [Hev Htr].
    simpl. apply IH; [done |].
    apply step_before_ready; [|done]. simpl. by rewrite Hev. }
  split; [done |]. split; [done |]. split; [by rewrite Hreg |].
  intros i. unfold hook_calls. destruct (links s !! i) as [l|] eqn:Hl; [|done].
  by destruct (Hlinks i l Hl) as (_ & _ & ? & _).
Qed.


Lemma unmount_callbacks i l s :
  links s !! i = Some l -> phase l = Mounted -> shouldPrefetch_ l = true ->
  (forall e, callbacks (registry s) !! e = Some i -> unobserve l = Some e) ->
  forall e j, callbacks (registry (step (Unmount i) s)) !! e = Some j ->
              j <> i /\ callbacks (registry s) !! e = Some j.
Proof.
  intros Hl Hphase Harmed Hcbs e j. simpl. rewrite Hl, Hphase, Harmed.
  unfold onBeforeUnmount. simpl. rewrite lookup_insert_eq. simpl.
  set (s1 := match idleId l with
             | Some h => if Nat.eqb h 0 then _ else _
             | None => _
             end).
  assert (registry s1 = registry s) as Hreg.
  { unfold s1. destruct (idleId l) as [h|]; [|done]. by destruct (Nat.eqb h 0). }
  clearbody s1.
  destruct (unobserve l) as [e0|] eqn:Hun.
  - pose proof (callbacks_unobserveFn e0 (registry s1)) as Hdel.
    destruct (unobserveFn e0 (registry s1)) as [r|r]; simpl in *;
      rewrite Hdel, Hreg; intros [Hne H]%lookup_delete_Some;
      (split; [|done]); intros ->; specialize (Hcbs e H); congruence.
  - simpl. rewrite Hreg. intros H. split; [|done].
    intros ->. specialize (Hcbs e H). congruence.
Qed.

(** X16.  In a run of host events, when the only link waiting for
    visibility is unmounted, the shared watcher goes with it: the
    callback map is empty, the watcher reference is cleared and every
    native observer ever constructed has been disconnected. *)
Theorem last_unmount_disposes_watcher (tr : list Event) (i : LinkId) (l : Link) :
  forallb host_event tr = true ->
  let s := run tr init in
  links s !! i = Some l ->
  phase l = Mounted ->
  shouldPrefetch_ l = true ->
  (forall e j, callbacks (registry s) !! e = Some j -> j = i) ->
  let r := registry (step (Unmount i) s) in
  callbacks r = ∅ /\ observer r = None /\ constructed r = disconnected r.
Proof.
  intros Hhost s Hl Hphase Harmed Honly r.
  assert (scheduled_ok s) as [_ Hinv] by (by apply run_ok, scheduled_ok_init).
  pose proof (Hinv i) as Hi. unfold link_ok in Hi. rewrite Hl in Hi.
  destruct Hi as (_ & _ & _ & _ & _ & Hcbs).
  assert (consistent r) as (Hiff & _ & Hcount).
  { apply step_consistent, run_consistent, consistent_init. }
  assert (callbacks r = ∅) as Hempty.
  { apply map_empty. intros e.
    destruct (callbacks r !! e) as [j|] eqn:He; [|done].
    destruct (unmount_callbacks i l s Hl Hphase Harmed
                (fun e H => proj1 (Hcbs e H)) e j He) as [Hne Hj].
    by destruct Hne, (Honly e j Hj). }
  destruct Hiff as [_ Hiff]. specialize (Hiff Hempty).
  rewrite Hiff in Hcount. split; [done |]. split; [done | lia].
Qed.

End MoreSchedulerFacts.

Section MoreSamples.

Import Observer Scheduler Runs.

(** X2 at a second element observed and released beside a first. *)
Lemma observe_then_unobserve_restores_witness :
  let st := Observer.run [Observe 7 tt] Observer.init in
  callbacks st !! 8 = None
  /\ unobserveFn 8 (observe 8 tt st) = Returned st.
Proof.
  intros st.
  assert (callbacks st !! 8 = None) as Hne by (vm_compute; reflexivity).
  split; [exact Hne |].
  destruct (observe_then_unobserve_restores unit [Observe 7 tt] 8 tt Hne)
    as (st' & Heq & _ & _ & Hsame & _).
  fold st in Heq, Hsame. rewrite Heq. f_equal. apply Hsame.
  eexists. vm_compute. reflexivity.
Defined.

(** X3 at the first of two observed elements. *)
Lemma unobserve_registered_returns_witness :
  let st := Observer.run [Observe 7 tt; Observe 8 tt] Observer.init in
  callbacks st !! 7 = Some tt
  /\ exists st', unobserveFn 7 st = Returned st'
                 /\ callbacks st' !! 7 = None
                 /\ callbacks st' !! 8 = callbacks st !! 8.
Proof.
  intros st.
  assert (callbacks st !! 7 = Some tt) as He by (vm_compute; reflexivity).
  split; [exact He |].
  destruct (unobserve_registered_returns unit [Observe 7 tt; Observe 8 tt] 7 tt He)
    as (st' & Heq & Hgone & _ & Hothers).
  exists st'. split; [exact Heq |]. split; [exact Hgone |].
  apply Hothers. discriminate.
Defined.

(** X4 at an element that is registered but reported out of view. *)
Lemma deliver_without_visible_registered_entry_witness :
  let s := Scheduler.run MoreSample.waiting Scheduler.init in
  callbacks (registry s) !! 7 = Some 0
  /\ deliver registry visibleCallback [MoreSample.hidden 7] s = s.
Proof.
  intros s. split; [vm_compute; reflexivity |].
  apply (deliver_without_visible_registered_entry
           LinkId State registry visibleCallback [MoreSample.hidden 7] s).
  intros entry [<-|[]]. left. reflexivity.
Defined.

(** X5 at a link to [/about] with [target="_blank"], the application
    being served under [/app/]. *)
Lemma new_context_link_is_guarded_anchor_witness :
  render UfoModel.ufo (Sample.options_with None Undefined) Sample.resolve "/app/"
         MoreSample.props_blank None false
  = @HAnchor unit (Some "/app/about") (Some "noopener noreferrer")
             (Some "_blank") None.
Proof.
  assert ("_blank" <> EmptyString) as Hne by discriminate.
  assert ("_blank" <> "_self") as Hself by discriminate.
  destruct (new_context_link_is_guarded_anchor
              UfoModel.ufo (Sample.options_with None Undefined) Sample.resolve
              "/app/" unit MoreSample.props_blank None false "_blank"
              eq_refl Hne Hself eq_refl)
    as [Hrender Hrel].
  rewrite Hrender.
  rewrite (Hrel eq_refl eq_refl eq_refl "/app/about"); [reflexivity | reflexivity |].
  discriminate.
Defined.

(** X6 at the same link, and at an absolute URL. *)
Lemma external_href_joins_base_only_for_paths_witness :
  href UfoModel.ufo (Sample.options_with None Undefined) Sample.resolve "/app/"
       MoreSample.props_blank (ToString "/about") = Some "/app/about"
  /\ href UfoModel.ufo (Sample.options_with None Undefined) Sample.resolve "/app/"
          MoreSample.props_blank (ToString "https://nuxt.com/docs")
     = Some "https://nuxt.com/docs".
Proof.
  split.
  - destruct (external_href_joins_base_only_for_paths
                UfoModel.ufo (Sample.options_with None Undefined) Sample.resolve
                "/app/" MoreSample.props_blank "/about") as [_ H]; [discriminate |].
    destruct (H eq_refl eq_refl) as [Hnone _]. exact (Hnone eq_refl).
  - destruct (external_href_joins_base_only_for_paths
                UfoModel.ufo (Sample.options_with None Undefined) Sample.resolve
                "/app/" MoreSample.props_blank "https://nuxt.com/docs")
      as [H _]; [discriminate |].
    apply H. right. reflexivity.
Defined.

(** X18, the fragment rule for a single [#], at [/a#b] under [append]. *)
Lemma single_fragment_preserved_witness :
  applyTrailingSlashBehavior UfoModel.ufo "/a#b" Append = "/a/#b".
Proof.
  apply (single_fragment_preserved UfoModel.ufo "/a" "b" Append);
    [reflexivity | reflexivity | discriminate | reflexivity].
Defined.

(** X10 at the sample link waiting for visibility. *)
Lemma registered_link_holds_its_handle_witness :
  let s := Scheduler.run MoreSample.waiting Scheduler.init in
  callbacks (registry s) !! 7 = Some 0
  /\ (exists l, links s !! 0 = Some l /\ unobserve l = Some 7 /\ hookCalls l = 0)
  /\ unscheduled 0 s.
Proof.
  intros s.
  assert (callbacks (registry s) !! 7 = Some 0) as He by (vm_compute; reflexivity).
  split; [exact He |].
  destruct (registered_link_holds_its_handle MoreSample.waiting 0 7 eq_refl He)
    as ((l & Hl & _ & Hun & _ & _ & Hz) & Hunsched & _).
  split; [|exact Hunsched]. exists l. auto.
Defined.

(** X11 at the sample link after its prefetch has started. *)
Lemma started_prefetch_holds_nothing_witness :
  let s := Scheduler.run (Sample.seen_thrice ++ [Settle 0])%list Scheduler.init in
  links s !! 0 = Some MoreSample.prefetched_link
  /\ unregistered 0 s /\ unscheduled 0 s /\ (0 ∉ ready s).
Proof.
  intros s.
  assert (links s !! 0 = Some MoreSample.prefetched_link) as Hl
    by (vm_compute; reflexivity).
  split; [exact Hl |].
  refine (proj2 (started_prefetch_holds_nothing
                   (Sample.seen_thrice ++ [Settle 0])%list 0
                   MoreSample.prefetched_link eq_refl Hl _)).
  simpl. lia.
Defined.

(** X12 at the sample link and a visible report of its element. *)
Lemma visible_report_starts_prefetch_witness :
  let s := Scheduler.run MoreSample.waiting Scheduler.init in
  hook_calls 0 s = 0
  /\ hook_calls 0 (step (Intersect [Sample.visible 7]) s) = 1.
Proof.
  intros s.
  destruct (visible_report_starts_prefetch
              MoreSample.waiting 0 (Sample.visible 7) eq_refl)
    as (H0 & H1 & _); [vm_compute; reflexivity | reflexivity |].
  exact (conj H0 H1).
Defined.

(** X13 at the sample link, its element being reported out of view. *)
Lemma no_prefetch_without_visibility_witness :
  hook_calls 0
    (Scheduler.run
       (MoreSample.waiting ++ [Intersect [MoreSample.hidden 7; MoreSample.hidden 7]])%list
       Scheduler.init) = 0.
Proof.
  apply (no_prefetch_without_visibility
           (MoreSample.waiting
            ++ [Intersect [MoreSample.hidden 7; MoreSample.hidden 7]])%list 0).
  reflexivity.
Defined.

(** X14 at a link that is mounted but never rendered to an element. *)
Lemma no_prefetch_without_element_witness :
  hook_calls 0
    (Scheduler.run
       [Setup 0 Props.default None false; Render 0 None; Mount 0; NuxtReady 0;
        IdleFire 1; IdleManual 0; Intersect [Sample.visible 7]]
       Scheduler.init) = 0.
Proof.
  apply (no_prefetch_without_element
           [Setup 0 Props.default None false; Render 0 None; Mount 0; NuxtReady 0;
            IdleFire 1; IdleManual 0; Intersect [Sample.visible 7]] 0).
  reflexivity.
Defined.

(** X15 at the sample link, mounted, reported visible and unmounted
    before the application is ready. *)
Lemma nothing_before_ready_witness :
  let s := Scheduler.run
             (Sample.mounted ++ [Intersect [Sample.visible 7]; Unmount 0])%list
             Scheduler.init in
  idle s = ∅ /\ registry s = Observer.init /\ hook_calls 0 s = 0.
Proof.
  intros s.
  destruct (nothing_before_ready
              (Sample.mounted ++ [Intersect [Sample.visible 7]; Unmount 0])%list
              eq_refl) as (Hidle & Hreg & _ & Hhook).
  exact (conj Hidle (conj Hreg (Hhook 0))).
Defined.

(** X16 at the sample link, unmounted while it alone waits. *)
Lemma last_unmount_disposes_watcher_witness :
  let s := Scheduler.run MoreSample.waiting Scheduler.init in
  is_Some (observer (registry s))
  /\ observer (registry (step (Unmount 0) s)) = None
  /\ callbacks (registry (step (Unmount 0) s)) = ∅.
Proof.
  intros s. split; [eexists; vm_compute; reflexivity |].
  destruct (last_unmount_disposes_watcher
              MoreSample.waiting 0 MoreSample.waiting_link eq_refl)
    as (Hempty & Hnone & _);
    [vm_compute; reflexivity | reflexivity | reflexivity | | by split].
  assert (callbacks (registry s) = {[7 := 0]}) as Hmap by (vm_compute; reflexivity).
  intros e j. fold s. rewrite Hmap. by intros [_ <-]%lookup_singleton_Some.
Defined.

End MoreSamples.

(** ** Unmounting, preloading and releasing twice *)

Section UnmountFacts.

Import Observer Scheduler Runs.

Implicit Types (s : State) (i j : LinkId) (l : Link) (e : Element) (h : nat).

Lemma never_rendered_never_arms i post s :
  (forall l, links s !! i = Some l -> el l = None) ->
  never_rendered i post = true ->
  never_arms i post s = true.
Proof.
  revert s. induction post as [|ev post IH]; intros s Hel Hpost; [done |].
  simpl in Hpost. apply andb_true_iff in Hpost as [Hev Hpost].
  simpl. apply andb_true_iff. split.
  - apply negb_true_iff. unfold arms_observation.
    destruct (links s !! i) as [l|] eqn:Hl; [|done]. by rewrite (Hel l eq_refl).
  - apply IH; [|done].
    apply (step_link_inv (fun l => el l = None) i ev s); try done;
      try (intros; congruence).
    intros v l -> _. destruct v as [e|]; [|done].
    by rewrite Nat.eqb_refl in Hev.
Qed.

Lemma unmount_keeps_hook_calls i l s :
  links s !! i = Some l ->
  hook_calls i (step (Unmount i) s) = hook_calls i s.
Proof.
  intros Hl.
  destruct (step_set_up i (shouldPrefetch_ l) (Unmount i) s) as (l' & Hl' & _);
    [by exists l |].
  unfold hook_calls. rewrite Hl, Hl'.
  apply (step_link_inv (fun l0 => hookCalls l0 = hookCalls l) i (Unmount i) s);
    try done; try (intros; discriminate).
  intros l0 Hl0. congruence.
Qed.

(** C3.  Unmounting a link is the [onBeforeUnmount] hook followed by the
    rendering layer's reset of the link's element reference.  When an
    armed, mounted link is unmounted after any run of host events, its
    idle-slot request is cancelled and its observation released: no idle
    callback of the link is pending and the link is not registered with
    the observer.  From then on, whatever happens in whatever order
    (ready signal, idle slots, reports of the watcher, other links, the
    link's idle callback invoked by hand), the prefetch hook is not
    called for the link again; for a link unmounted before its idle
    slot arrived, it is never called at all.  The one thing excluded is
    that the unmounted link is rendered to an element again. *)
Theorem no_prefetch_after_unmount (pre post : list Event) (i : LinkId) (l : Link) :
  forallb host_event pre = true ->
  links (run pre init) !! i = Some l ->
  phase l = Mounted ->
  shouldPrefetch_ l = true ->
  never_rendered i post = true ->
  let s := run pre init in
  let s' := run [Unmount i; Render i None] s in
  unscheduled i s'
  /\ unregistered i s'
  /\ hook_calls i (run post s') = hook_calls i s
  /\ ((idleId l = None \/ exists h, idle s !! h = Some i) ->
      hook_calls i (run post s') = 0).
Proof.
  intros Hhost Hl Hphase Harmed Hpost s s'.
  set (s1 := step (Unmount i) s).
  assert (s' = step (Render i None) s1) as Hs' by reflexivity.
  destruct (unmount_cancels_and_releases pre (Render i None :: post) i l
              Hhost Hl Hphase Harmed) as (Hunsched & Hunreg & Hquiet).
  fold s in Hunsched, Hunreg, Hquiet. fold s1 in Hunsched, Hunreg, Hquiet.
  assert (idle s' = idle s1 /\ registry s' = registry s1) as [Hidle Hreg].
  { rewrite Hs'. simpl. by destruct (links s1 !! i). }
  assert (forall l', links s' !! i = Some l' -> el l' = None) as Hel.
  { rewrite Hs'. simpl. destruct (links s1 !! i) as [l1|] eqn:Hl1.
    - simpl. rewrite lookup_insert_eq. by intros l' [= <-].
    - by rewrite Hl1. }
  assert (hook_calls i (run post s') = hook_calls i s) as Hsame.
  { change (run post s') with (run (Render i None :: post) s1).
    rewrite Hquiet.
    - by apply unmount_keeps_hook_calls with l.
    - change (negb (arms_observation i (Render i None) s1)
              && never_arms i post s' = true).
      apply andb_true_iff. split.
      + apply negb_true_iff. unfold arms_observation.
        destruct (links s1 !! i) as [l1|]; [|done]. by destruct (el l1).
      + by apply never_rendered_never_arms. }
  split; [|split; [|split; [exact Hsame |]]].
  - intros h. rewrite Hidle. apply Hunsched.
  - intros e. rewrite Hreg. apply Hunreg.
  - intros Hearly. rewrite Hsame.
    assert (scheduled_ok s) as [_ Hinv] by (by apply run_ok, scheduled_ok_init).
    fold s in Hl.
    pose proof (Hinv i) as Hi. unfold link_ok in Hi. rewrite Hl in Hi.
    destruct Hi as (_ & Hnone & _ & _ & Hwait & _).
    unfold hook_calls. rewrite Hl.
    destruct Hearly as [Hid|[h Hh]].
    + by destruct (Hnone Hid).
    + by destruct (Hwait h Hh) as (_ & ? & _).
Qed.




End UnmountFacts.

Section UnmountSamples.

Import Observer Scheduler Runs.

(** C3 at the sample link, unmounted while its idle callback is pending;
    the idle callback is then invoked by hand and the element reported
    visible, and the ready signal comes once more: the hook is never
    called. *)
Lemma no_prefetch_after_unmount_witness :
  let pre := (Sample.mounted ++ [NuxtReady 0])%list in
  let post := [IdleManual 0; Intersect [Sample.visible 7]; NuxtReady 0; IdleFire 1;
               IdleFire 2; Intersect [Sample.visible 7]] in
  never_rendered 0 post = true
  /\ hook_calls 0
       (Scheduler.run post
          (Scheduler.run [Unmount 0; Render 0 None]
                         (Scheduler.run pre Scheduler.init))) = 0.
Proof.
  intros pre post. split; [reflexivity |].
  destruct (no_prefetch_after_unmount
              pre post 0
              {| shouldPrefetch_ := true; isExternal_ := false;
                 phase := Mounted; el := Some 7; idleId := Some 1;
                 unobserve := None; prefetched := false; hookCalls := 0;
                 preloads := 0; inflight := 0 |})
    as (_ & _ & _ & Hnever);
    [reflexivity | vm_compute; reflexivity | reflexivity | reflexivity
     | reflexivity |].
  apply Hnever. right. exists 1. vm_compute. reflexivity.
Defined.

(** The same link unmounted before the application is ready: the ready
    signal and the idle slot come afterwards and find no element. *)
Example unmounted_before_ready_stays_silent :
  hook_calls 0
    (Scheduler.run
       (Sample.mounted
        ++ [Unmount 0; Render 0 None; NuxtReady 0; IdleFire 1;
            Intersect [Sample.visible 7]])%list
       Scheduler.init) = 0.
Proof. vm_compute. reflexivity. Qed.

(** The release function is also called twice by the component itself:
    when two links share an element and the second has prefetched, the
    watcher is gone while the first link still holds its release
    function; at its unmount the call throws, so that the line clearing
    the handle is not reached. *)
Example unmount_after_shared_element_throws :
  let s := Scheduler.run MoreSample.shared_element Scheduler.init in
  observer (registry s) = None
  /\ (exists l, links s !! 0 = Some l /\ unobserve l = Some 7)
  /\ unobserveFn 7 (registry s) = Threw (registry s)
  /\ (exists l, links (step (Unmount 0) s) !! 0 = Some l
                /\ unobserve l = Some 7).
Proof.
  intros s. split; [vm_compute; reflexivity |].
  split; [eexists; split; vm_compute; reflexivity |].
  split; [vm_compute; reflexivity |].
  eexists. split; vm_compute; reflexivity.
Qed.


End UnmountSamples.
